(** * Amos-Demo python agent: history reconstruction, stream orchestration
      and tool catalog (src/python-agent/agent/{models,agent,tools,client}.py,
      src/python-agent/api/routes.py).

    Strings are modelled as [String.string]; Python [None] as [option];
    a dict payload key that may be absent, [null] or set as [field]. *)

From Stdlib Require Import String Ascii List Bool ZArith Lia DecimalString.
Import ListNotations.
Open Scope string_scope.
#[local] Set Warnings "-register-all".

(** ** JSON values and raw payloads (agent/models.py) *)

Inductive json : Type :=
| JNull
| JBool (b : bool)
| JNum (z : Z)
| JStr (s : string)
| JArr (xs : list json)
| JObj (kvs : list (string * json)).

(** A key of a Python dict: absent, present with [None], or present. *)
Inductive field (A : Type) : Type :=
| Absent
| Null
| Val (a : A).
Arguments Absent {A}.
Arguments Null {A}.
Arguments Val {A} a.

(** [raw.get(k, d)]: [None] in the result is Python's [None]. *)
Definition dict_get {A} (f : field A) (d : A) : option A :=
  match f with
  | Absent => Some d
  | Null => None
  | Val a => Some a
  end.

(** [raw.get(k) or d] for a string value. *)
Definition get_or (f : field string) (d : string) : string :=
  match f with
  | Val a => if String.eqb a "" then d else a
  | _ => d
  end.

(** An OpenAI tool call as stored in a raw payload:
    [{"id": .., "type": "function", "function": {"name": .., "arguments": ..}}].
    [tc_arguments] is [json.loads] of the stored argument text when that is
    a JSON object (the form LangChain accepts as a tool call's [args]):
    [None] when [json.loads] raises or yields another value. *)
Record tool_call : Type := {
  tc_id : string;
  tc_name : string;
  tc_arguments : option (list (string * json))
}.

(** The keys of [raw_message] read by the code. *)
Record raw_message : Type := {
  raw_content : field string;
  raw_tool_calls : field (list tool_call);
  raw_tool_call_id : field string;
  raw_name : field string
}.

Inductive role : Type := RUser | RAssistant | RTool | RSystem.

(** [class Message] (identifiers and timestamps are not read by the core). *)
Record message : Type := {
  msg_role : role;
  msg_content : option string;
  msg_tool_call_id : option string;
  msg_raw : raw_message
}.

(** ** LangChain dialogue turns *)

Record lc_tool_call : Type := {
  lc_name : string;
  lc_args : list (string * json);
  lc_id : string
}.

Inductive turn : Type :=
| SystemMessage (c : string)
| HumanMessage (c : string)
| AIMessage (c : string) (tool_calls : list lc_tool_call)
| ToolMessage (c : string) (tool_call_id : string) (name : option string).

(** ** [ConversationalAgent.load_conversation_history] (agent.py 78-126)

    Result [None]: an exception is raised (a [json.loads] failure, or
    [None] passed as a message's [content] or as a [ToolMessage]'s
    [tool_call_id], which LangChain's message models reject). The input is
    the log that [get_messages] returned; its own failures are those of
    [chat_io] below. A stored tool call is taken to have the [id] and
    [function] keys that [chat] writes; a record lacking one (a [KeyError]
    at lines 103-105) is outside this model. *)

(** The loop of lines 98-105. *)
Fixpoint convert_tool_calls (tcs : list tool_call) : option (list lc_tool_call) :=
  match tcs with
  | [] => Some []
  | tc :: rest =>
      match tc_arguments tc with
      | None => None
      | Some args =>
          match convert_tool_calls rest with
          | None => None
          | Some l => Some ({| lc_name := tc_name tc; lc_args := args;
                               lc_id := tc_id tc |} :: l)
          end
      end
  end.

(** [if "tool_calls" in raw and raw["tool_calls"]]. *)
Definition nonempty_tool_calls (r : raw_message) : option (list tool_call) :=
  match raw_tool_calls r with
  | Val ((_ :: _) as l) => Some l
  | _ => None
  end.

(** One iteration of the loop of line 86: the turns it appends. *)
Definition convert_message (m : message) : option (list turn) :=
  let r := msg_raw m in
  match msg_role m with
  | RUser =>
      match dict_get (raw_content r) "" with
      | Some c => Some [HumanMessage c]
      | None => None
      end
  | RAssistant =>
      match nonempty_tool_calls r with
      | Some tcs =>
          match convert_tool_calls tcs with
          | Some l => Some [AIMessage (get_or (raw_content r) "") l]
          | None => None
          end
      | None =>
          match dict_get (raw_content r) "" with
          | Some c => Some [AIMessage c []]
          | None => None
          end
      end
  | RTool =>
      match dict_get (raw_content r) "", dict_get (raw_tool_call_id r) "" with
      | Some c, Some i => Some [ToolMessage c i (dict_get (raw_name r) "unknown")]
      | _, _ => None
      end
  | RSystem => Some []
  end.

Fixpoint load_conversation_history (msgs : list message) : option (list turn) :=
  match msgs with
  | [] => Some []
  | m :: rest =>
      match convert_message m with
      | None => None
      | Some ts =>
          match load_conversation_history rest with
          | None => None
          | Some st => Some (app ts st)
          end
      end
  end.

(** ** Observations used by the claims *)

Definition turn_tool_call_ids (t : turn) : list string :=
  match t with
  | AIMessage _ l => map lc_id l
  | _ => []
  end.

Definition dialogue_tool_call_ids (st : list turn) : list string :=
  flat_map turn_tool_call_ids st.

(** Identifiers answered by a [tool]-role message of the log. *)
Definition tool_result_ids (msgs : list message) : list string :=
  flat_map (fun m => match msg_role m, raw_tool_call_id (msg_raw m) with
                     | RTool, Val i => [i]
                     | _, _ => []
                     end) msgs.

(** Identifiers of the tool calls of the log's assistant messages. *)
Definition assistant_tool_call_ids (msgs : list message) : list string :=
  flat_map (fun m => match msg_role m, nonempty_tool_calls (msg_raw m) with
                     | RAssistant, Some tcs => map tc_id tcs
                     | _, _ => []
                     end) msgs.

Definition is_system_turn (t : turn) : bool :=
  match t with SystemMessage _ => true | _ => false end.

Definition is_system_message (m : message) : bool :=
  match msg_role m with RSystem => true | _ => false end.

(** The log of the spec's scenario. *)
Definition raw_empty : raw_message :=
  {| raw_content := Absent; raw_tool_calls := Absent;
     raw_tool_call_id := Absent; raw_name := Absent |}.

Definition user_hi : message :=
  {| msg_role := RUser; msg_content := Some "hi"; msg_tool_call_id := None;
     msg_raw := {| raw_content := Val "hi"; raw_tool_calls := Absent;
                   raw_tool_call_id := Absent; raw_name := Absent |} |}.

Definition call_c1 : tool_call :=
  {| tc_id := "c1"; tc_name := "search_knowledge_base";
     tc_arguments := Some ([("query", JStr "hi")]) |}.

Definition assistant_c1 : message :=
  {| msg_role := RAssistant; msg_content := None; msg_tool_call_id := None;
     msg_raw := {| raw_content := Null; raw_tool_calls := Val [call_c1];
                   raw_tool_call_id := Absent; raw_name := Absent |} |}.

Definition orphan_log : list message := [user_hi; assistant_c1].

(** ** Text helpers: [str.lower()], [p in s], [s[:n]] *)

Definition lower_ascii (c : ascii) : ascii :=
  let n := nat_of_ascii c in
  if Nat.leb 65 n && Nat.leb n 90 then ascii_of_nat (n + 32) else c.

Fixpoint lower (s : string) : string :=
  match s with
  | EmptyString => EmptyString
  | String c s' => String (lower_ascii c) (lower s')
  end.

(** [p in s] *)
Fixpoint contains (s p : string) : bool :=
  String.prefix p s ||
  match s with
  | EmptyString => false
  | String _ s' => contains s' p
  end.

(** A Python [str] is modelled by its UTF-8 encoding: one character (code
    point) is a lead byte followed by its continuation bytes, [10xxxxxx].
    [len] and slicing count characters, not bytes. *)
Definition is_continuation (c : ascii) : bool :=
  let n := nat_of_ascii c in Nat.leb 128 n && Nat.ltb n 192.

(** [len(s)] *)
Fixpoint py_len (s : string) : nat :=
  match s with
  | EmptyString => 0
  | String c s' => if is_continuation c then py_len s' else S (py_len s')
  end.

(** [s[:n]] *)
Fixpoint py_prefix (n : nat) (s : string) : string :=
  match s with
  | EmptyString => EmptyString
  | String c s' =>
      if is_continuation c then String c (py_prefix n s')
      else match n with
           | 0 => EmptyString
           | S n' => String c (py_prefix n' s')
           end
  end.

(** ** [ConversationalAgent.chat] (agent.py 148-322) *)

(** [SYSTEM_PROMPT] (agent.py 14-55): a configuration constant; only its
    first line is kept, no property reads the text. *)
Definition SYSTEM_PROMPT : string :=
  "You are a specialized AI assistant for a company's Q&A knowledge base system.".

(** Events of [self.agent.astream_events(..., version="v1")] read by the loop;
    [OnChatModelStream c] carries [chunk.content], [OnToolStart] the tool's
    keyword arguments ([json.dumps] then [json.loads] gives them back). *)
Inductive agent_event : Type :=
| OnChatModelStream (content : string)
| OnToolStart (name : string) (input : list (string * json))
| OnToolEnd (name : string) (output : string)
| OnOther (kind : string).

(** How the agent's event stream stops: normally or by raising. *)
Inductive stream_end : Type :=
| StreamDone
| StreamRaise (err : string).

(** The JSON objects yielded to the caller ([type] and [data]). *)
Inductive stream_event : Type :=
| EvContent (data : string)
| EvToolCallStart (id : string) (name : string) (args : list (string * json))
| EvToolCallEnd (id : option string) (name : string) (status : string)
    (output_preview : string)
| EvError (message : string).

(** Effects of one invocation, in program order: the backend calls
    ([get_messages], [save_message]), the agent invocation with its input
    history, each consumed agent event, and each [yield]. *)
Inductive effect : Type :=
| ELoad
| ESave (m : message)
| EInvoke (history : list turn)
| EConsume (ev : agent_event)
| EYield (ev : stream_event).

(** The mutable locals of [chat] (lines 182-185) plus the effect trace and
    the position in the uuid supply. *)
Record chat_state : Type := {
  trace : list effect;
  next_uuid : nat;
  current_tool_calls : list tool_call;
  tool_call_assistant_saved : bool;
  final_response : string;
  in_final_response : bool
}.

Definition emit (st : chat_state) (e : effect) : chat_state :=
  {| trace := app (trace st) [e]; next_uuid := next_uuid st;
     current_tool_calls := current_tool_calls st;
     tool_call_assistant_saved := tool_call_assistant_saved st;
     final_response := final_response st;
     in_final_response := in_final_response st |}.

(** [backend_client.save_message(conversation_id, role, content,
    tool_call_id, raw_message)] when it returns: the backend appends the
    message. A call that raises is modelled by [save_io] below. *)
Definition save_message (st : chat_state) (r : role) (content : option string)
    (tool_call_id : option string) (raw : raw_message) : chat_state :=
  emit st (ESave {| msg_role := r; msg_content := content;
                    msg_tool_call_id := tool_call_id; msg_raw := raw |}).

Definition user_msg_dict (user_message : string) : raw_message :=
  {| raw_content := Val user_message; raw_tool_calls := Absent;
     raw_tool_call_id := Absent; raw_name := Absent |}.

Definition assistant_with_tools (tcs : list tool_call) : raw_message :=
  {| raw_content := Null; raw_tool_calls := Val tcs;
     raw_tool_call_id := Absent; raw_name := Absent |}.

Definition tool_result_msg (output id name : string) : raw_message :=
  {| raw_content := Val output; raw_tool_calls := Absent;
     raw_tool_call_id := Val id; raw_name := Val name |}.

Definition final_assistant_msg (content : string) : raw_message :=
  {| raw_content := Val content; raw_tool_calls := Absent;
     raw_tool_call_id := Absent; raw_name := Absent |}.

(** Lines 291-293. *)
Definition is_success (tool_output : string) : bool :=
  negb (existsb (fun phrase => contains (lower tool_output) phrase)
                ["no relevant"; "not found"; "error"]).

(** Lines 296-298. *)
Definition output_preview (tool_output : string) : string :=
  if Nat.ltb 300 (py_len tool_output)
  then py_prefix 300 tool_output ++ "... (truncated)"
  else py_prefix 300 tool_output.

Section Chat.

(** [str(uuid.uuid4())[:8]] for the n-th call of the invocation. *)
Variable uuid8 : nat -> string.

(** One iteration of the [async for] loop (lines 195-308). *)
Definition step (st0 : chat_state) (ev : agent_event) : chat_state :=
  let st := emit st0 (EConsume ev) in
  match ev with
  | OnChatModelStream c =>
      if String.eqb c "" then st
      else
        let fr := final_response st ++ c in
        let inf := if negb (match current_tool_calls st with [] => true | _ => false end)
                      && tool_call_assistant_saved st
                   then true else in_final_response st in
        emit {| trace := trace st; next_uuid := next_uuid st;
                current_tool_calls := current_tool_calls st;
                tool_call_assistant_saved := tool_call_assistant_saved st;
                final_response := fr; in_final_response := inf |}
             (EYield (EvContent c))
  | OnToolStart tool_name tool_input =>
      let tool_call_id := "call_" ++ uuid8 (next_uuid st) in
      let cur0 := if tool_call_assistant_saved st then [] else current_tool_calls st in
      let saved0 := if tool_call_assistant_saved st then false
                    else tool_call_assistant_saved st in
      let tc := {| tc_id := tool_call_id; tc_name := tool_name;
                   tc_arguments := Some tool_input |} in
      let cur := app cur0 [tc] in
      let st1 := {| trace := trace st; next_uuid := S (next_uuid st);
                    current_tool_calls := cur;
                    tool_call_assistant_saved := saved0;
                    final_response := final_response st;
                    in_final_response := in_final_response st |} in
      let st2 :=
        if negb saved0 && negb (match cur with [] => true | _ => false end)
        then
          let st' := save_message st1 RAssistant None None (assistant_with_tools cur) in
          {| trace := trace st'; next_uuid := next_uuid st';
             current_tool_calls := current_tool_calls st';
             tool_call_assistant_saved := true;
             final_response := final_response st';
             in_final_response := in_final_response st' |}
        else st1 in
      emit st2 (EYield (EvToolCallStart tool_call_id tool_name tool_input))
  | OnToolEnd tool_name tool_output =>
      let matching_tool_call :=
        find (fun tc => String.eqb (tc_name tc) tool_name) (current_tool_calls st) in
      let st1 :=
        match matching_tool_call with
        | Some tc => save_message st RTool (Some tool_output) (Some (tc_id tc))
                       (tool_result_msg tool_output (tc_id tc) tool_name)
        | None => st
        end in
      emit st1 (EYield (EvToolCallEnd (option_map tc_id matching_tool_call) tool_name
                          (if is_success tool_output then "success" else "error")
                          (output_preview tool_output)))
  | OnOther _ => st
  end.

Definition run_events (st : chat_state) (evs : list agent_event) : chat_state :=
  fold_left step evs st.

(** Lines 160-162. *)
Definition with_system_prompt (history : list turn) : list turn :=
  match history with
  | [] => SystemMessage SYSTEM_PROMPT :: history
  | t :: _ => if negb (is_system_turn t) then SystemMessage SYSTEM_PROMPT :: history
              else history
  end.

(** The history handed to the agent (lines 158-175). *)
Definition chat_history (history : list turn) (user_message : string) : list turn :=
  app (with_system_prompt history) [HumanMessage user_message].

Definition init_state : chat_state :=
  {| trace := [ELoad]; next_uuid := 0; current_tool_calls := [];
     tool_call_assistant_saved := false; final_response := "";
     in_final_response := false |}.

(** Lines 164-175 and the call of line 187: the user message saved, then
    the agent invoked. *)
Definition invoked_state (history : list turn) (user_message : string) : chat_state :=
  let st := save_message init_state RUser (Some user_message) None
              (user_msg_dict user_message) in
  emit st (EInvoke (chat_history history user_message)).

(** The message that [str(e)] of a failed history load reports. *)
Definition load_error : string := "failed to load conversation history".

(** [chat log agent user_message]: [log] is the conversation's persisted
    messages, [agent] the agent runtime (its event stream for an input
    history). Result: the effects performed, and [Some e] when [chat]
    raises [e]. This is the invocation in which [get_messages] returns
    [log] and every [save_message] returns; [chat_io] below lets them
    raise, and agrees with [chat] when they do not ([chat_io_accepting]). *)
Definition chat (log : list message)
    (agent : list turn -> list agent_event * stream_end)
    (user_message : string) : list effect * option string :=
  match load_conversation_history log with
  | None => ([ELoad], Some load_error)
  | Some history =>
      let h := chat_history history user_message in
      let st := invoked_state history user_message in
      let (evs, ending) := agent h in
      let st := run_events st evs in
      match ending with
      | StreamRaise e => (trace st, Some e)
      | StreamDone =>
          if String.eqb (final_response st) "" then (trace st, None)
          else (trace (save_message st RAssistant (Some (final_response st)) None
                         (final_assistant_msg (final_response st))), None)
      end
  end.

(** [send_message.generate] (routes.py 36-49): what the client receives. *)
Definition yields (tr : list effect) : list stream_event :=
  flat_map (fun e => match e with EYield ev => [ev] | _ => [] end) tr.

Definition generate (log : list message)
    (agent : list turn -> list agent_event * stream_end)
    (user_message : string) : list stream_event :=
  let (tr, err) := chat log agent user_message in
  app (yields tr) (match err with Some e => [EvError e] | None => [] end).

End Chat.

(** The messages an effect trace appends to the backend. *)
Definition saved_messages (tr : list effect) : list message :=
  flat_map (fun e => match e with ESave m => [m] | _ => [] end) tr.

(** ** [chat] against a backend whose calls can raise

    [chat] above is the invocation in which [get_messages] returns the log
    and every [save_message] returns. The client's calls can raise:
    [raise_for_status], transport errors, and the parsing of the reply
    into the strict [Message] model. An exception leaves
    [chat] at once, ending the consumption of the agent's events. *)

(** What one [backend_client.save_message] call does: it returns (the
    backend stored the message and answered with it), or it raises [err],
    the message having been stored ([stored = true]: a read timeout or a
    reply that the [Message] model rejects) or not (a connection failure or
    an error status). *)
Inductive save_outcome : Type :=
| SaveReturns
| SaveRaises (stored : bool) (err : string).

Section ChatIO.

Variable uuid8 : nat -> string.

(** The backend's answer to a save, given what the invocation has done so
    far and the message. *)
Variable save_backend : list effect -> message -> save_outcome.

(** [str(e)] of the exception raised by converting the persisted log. *)
Variable conversion_error : list message -> string.

(** [await self.backend_client.save_message(...)]: the state after the
    call, and [Some err] when it raises. *)
Definition save_io (st : chat_state) (r : role) (content : option string)
    (tool_call_id : option string) (raw : raw_message) : chat_state * option string :=
  let m := {| msg_role := r; msg_content := content;
              msg_tool_call_id := tool_call_id; msg_raw := raw |} in
  match save_backend (trace st) m with
  | SaveReturns => (emit st (ESave m), None)
  | SaveRaises stored err => (if stored then emit st (ESave m) else st, Some err)
  end.

(** One iteration of the [async for] loop (lines 195-308); [Some err] when
    a save raises. The two branches without a backend call are those of
    [step]. *)
Definition step_io (st0 : chat_state) (ev : agent_event) : chat_state * option string :=
  let st := emit st0 (EConsume ev) in
  match ev with
  | OnToolStart tool_name tool_input =>
      let tool_call_id := "call_" ++ uuid8 (next_uuid st) in
      let cur0 := if tool_call_assistant_saved st then [] else current_tool_calls st in
      let saved0 := if tool_call_assistant_saved st then false
                    else tool_call_assistant_saved st in
      let tc := {| tc_id := tool_call_id; tc_name := tool_name;
                   tc_arguments := Some tool_input |} in
      let cur := app cur0 [tc] in
      let st1 := {| trace := trace st; next_uuid := S (next_uuid st);
                    current_tool_calls := cur;
                    tool_call_assistant_saved := saved0;
                    final_response := final_response st;
                    in_final_response := in_final_response st |} in
      let yield_start st2 :=
        emit st2 (EYield (EvToolCallStart tool_call_id tool_name tool_input)) in
      if negb saved0 && negb (match cur with [] => true | _ => false end)
      then
        match save_io st1 RAssistant None None (assistant_with_tools cur) with
        | (st', Some err) => (st', Some err)
        | (st', None) =>
            (yield_start {| trace := trace st'; next_uuid := next_uuid st';
                            current_tool_calls := current_tool_calls st';
                            tool_call_assistant_saved := true;
                            final_response := final_response st';
                            in_final_response := in_final_response st' |}, None)
        end
      else (yield_start st1, None)
  | OnToolEnd tool_name tool_output =>
      let matching_tool_call :=
        find (fun tc => String.eqb (tc_name tc) tool_name) (current_tool_calls st) in
      let yield_end st1 :=
        emit st1 (EYield (EvToolCallEnd (option_map tc_id matching_tool_call) tool_name
                            (if is_success tool_output then "success" else "error")
                            (output_preview tool_output))) in
      match matching_tool_call with
      | Some tc =>
          match save_io st RTool (Some tool_output) (Some (tc_id tc))
                  (tool_result_msg tool_output (tc_id tc) tool_name) with
          | (st', Some err) => (st', Some err)
          | (st', None) => (yield_end st', None)
          end
      | None => (yield_end st, None)
      end
  | _ => (step uuid8 st0 ev, None)
  end.

(** The loop over the agent's events, left at the first exception. *)
Fixpoint run_events_io (st : chat_state) (evs : list agent_event)
    : chat_state * option string :=
  match evs with
  | [] => (st, None)
  | ev :: rest =>
      match step_io st ev with
      | (st', None) => run_events_io st' rest
      | (st', Some err) => (st', Some err)
      end
  end.

(** [chat] (agent.py 148-322): [fetched] is what [get_messages] gives, the
    persisted log or the message of the exception it raises. *)
Definition chat_io (fetched : list message + string)
    (agent : list turn -> list agent_event * stream_end)
    (user_message : string) : list effect * option string :=
  match fetched with
  | inr err => ([ELoad], Some err)
  | inl log =>
      match load_conversation_history log with
      | None => ([ELoad], Some (conversion_error log))
      | Some history =>
          match save_io init_state RUser (Some user_message) None
                  (user_msg_dict user_message) with
          | (st, Some err) => (trace st, Some err)
          | (st, None) =>
              let h := chat_history history user_message in
              let st := emit st (EInvoke h) in
              let (evs, ending) := agent h in
              match run_events_io st evs with
              | (st, Some err) => (trace st, Some err)
              | (st, None) =>
                  match ending with
                  | StreamRaise err => (trace st, Some err)
                  | StreamDone =>
                      if String.eqb (final_response st) "" then (trace st, None)
                      else
                        let (st', err) :=
                          save_io st RAssistant (Some (final_response st)) None
                            (final_assistant_msg (final_response st)) in
                        (trace st', err)
                  end
              end
          end
      end
  end.

(** [send_message.generate] over [chat_io]. *)
Definition generate_io (fetched : list message + string)
    (agent : list turn -> list agent_event * stream_end)
    (user_message : string) : list stream_event :=
  let (tr, err) := chat_io fetched agent user_message in
  app (yields tr) (match err with Some e => [EvError e] | None => [] end).

End ChatIO.

(** A backend that accepts every save. *)
Definition accepting_backend : list effect -> message -> save_outcome :=
  fun _ _ => SaveReturns.

(** A backend that cannot be reached: every save raises before storing. *)
Definition unreachable_backend : list effect -> message -> save_outcome :=
  fun _ _ => SaveRaises false "All connection attempts failed".

(** A backend that stores each tool result but whose reply to that save
    times out. *)
Definition tool_result_timeout_backend : list effect -> message -> save_outcome :=
  fun _ m => match msg_role m with
             | RTool => SaveRaises true "timed out"
             | _ => SaveReturns
             end.

(** What the backend holds, among the messages [stored], when a stream event
    is sent: for a [tool_call_start], an assistant message whose
    [tool_calls] list has that call (identifier, name, arguments); for a
    [tool_call_end] with an identifier, a tool message answering that
    identifier under that name. *)
Definition announced_stored (stored : list message) (y : stream_event) : Prop :=
  match y with
  | EvToolCallStart id name args =>
      exists m tcs,
        In m stored /\ msg_role m = RAssistant /\ raw_tool_calls (msg_raw m) = Val tcs /\
        In {| tc_id := id; tc_name := name; tc_arguments := Some args |} tcs
  | EvToolCallEnd (Some id) name _ _ =>
      exists m,
        In m stored /\ msg_role m = RTool /\ msg_tool_call_id m = Some id /\
        raw_name (msg_raw m) = Val name
  | _ => True
  end.

(** Every stream event of the trace satisfies [announced_stored] for the
    messages saved before it. *)
Definition announce_ok (tr : list effect) : Prop :=
  forall n y, nth_error tr n = Some (EYield y) ->
              announced_stored (saved_messages (firstn n tr)) y.

(** ** Tool catalog (agent/tools.py) over the backend client (agent/client.py) *)

Inductive exn_kind : Type :=
| ValidationError      (** pydantic_core.ValidationError, a ValueError *)
| JSONDecodeError      (** json.JSONDecodeError, a ValueError *)
| HTTPStatusError      (** httpx, from raise_for_status *)
| TransportError       (** httpx, connection failures and timeouts *)
| NotImplementedErr
| OtherError.

Record exn : Type := { exn_kind_of : exn_kind; exn_msg : string }.

Definition is_value_error (k : exn_kind) : bool :=
  match k with ValidationError | JSONDecodeError => true | _ => false end.

(** A Python computation: a value, or an exception raised to the caller. *)
Inductive result (A : Type) : Type :=
| Ok (a : A)
| Err (e : exn).
Arguments Ok {A} a.
Arguments Err {A} e.

Record qa_pair : Type := { qa_id : string; question : string; answer : string }.

Record search_qa_response : Type := { qa_pairs : list qa_pair; count : Z }.

Record search_qa_request : Type := { req_query : string; req_limit : Z }.

(** Exceptions an HTTP call of the client can raise: transport and status
    errors of httpx, and the parsing of the response body. *)
Inductive backend_kind : Type :=
| BValidationError
| BJSONDecodeError
| BHTTPStatusError
| BTransportError.

Definition kind_of_backend (k : backend_kind) : exn_kind :=
  match k with
  | BValidationError => ValidationError
  | BJSONDecodeError => JSONDecodeError
  | BHTTPStatusError => HTTPStatusError
  | BTransportError => TransportError
  end.

(** An HTTP call: its parsed response, or the exception it raises. *)
Definition http_result (A : Type) : Type := A + (backend_kind * string).

Definition of_http {A} (r : http_result A) : result A :=
  match r with
  | inl a => Ok a
  | inr (k, m) => Err {| exn_kind_of := kind_of_backend k; exn_msg := m |}
  end.

(** What the tools depend on outside this repository: the Go backend's
    endpoints (with [raise_for_status] and response parsing), [UUID(s)]
    ([None] when it raises ValueError, [uuid_error s] being that
    exception's message, which depends on [s]: "badly formed hexadecimal
    UUID string" or "invalid literal for int() with base 16: ...") and
    [settings.use_pinecone]. *)
Record tool_env : Type := {
  post_search_qa : search_qa_request -> http_result search_qa_response;
  post_get_qa_by_ids : list string -> http_result (list qa_pair);
  parse_uuid : string -> option string;
  uuid_error : string -> string;
  use_pinecone : bool
}.

Definition nl : string := String (ascii_of_nat 10) EmptyString.

Definition py_str_int (z : Z) : string := NilZero.string_of_int (Z.to_int z).

Definition validation_error (model : string) : exn :=
  {| exn_kind_of := ValidationError;
     exn_msg := "1 validation error for " ++ model |}.

(** [SearchQARequest(query=..., limit=...)] (models.py 59-64):
    [min_length=1, max_length=200] (in characters), [ge=1, le=100]. *)
Definition SearchQARequest (query : string) (limit : Z) : result search_qa_request :=
  if Nat.leb 1 (py_len query) && Nat.leb (py_len query) 200
     && Z.leb 1 limit && Z.leb limit 100
  then Ok {| req_query := query; req_limit := limit |}
  else Err (validation_error "SearchQARequest").

(** [BackendClient.search_qa]. *)
Definition search_qa (env : tool_env) (query : string) (limit : Z)
    : result search_qa_response :=
  match SearchQARequest query limit with
  | Err e => Err e
  | Ok request => of_http (post_search_qa env request)
  end.

(** [BackendClient.semantic_search_qa]. *)
Definition semantic_search_qa (env : tool_env) (query : string) (top_k : Z)
    : result search_qa_response :=
  if negb (use_pinecone env) then search_qa env query top_k
  else Err {| exn_kind_of := NotImplementedErr;
              exn_msg := "Pinecone integration pending" |}.

(** [BackendClient.get_qa_by_ids]: [GetQAByIDsRequest] has
    [min_length=1, max_length=50]. *)
Definition client_get_qa_by_ids (env : tool_env) (ids : list string)
    : result (list qa_pair) :=
  if Nat.leb 1 (List.length ids) && Nat.leb (List.length ids) 50
  then of_http (post_get_qa_by_ids env ids)
  else Err (validation_error "GetQAByIDsRequest").

Fixpoint enumerate_from {A} (i : Z) (l : list A) : list (Z * A) :=
  match l with
  | [] => []
  | x :: r => (i, x) :: enumerate_from (Z.succ i) r
  end.

(** [search_knowledge_base] (tools.py 11-43). *)
Definition search_knowledge_base (env : tool_env) (query : string) (limit : Z)
    : result string :=
  match search_qa env query (Z.min limit 10) with
  | Err e => Ok ("Error searching knowledge base: " ++ exn_msg e)
  | Ok response =>
      if Z.eqb (count response) 0
      then Ok "No relevant information found in the knowledge base."
      else Ok (String.concat (nl ++ nl)
                 (map (fun '(i, qa) =>
                         "Result " ++ py_str_int i ++ ":" ++ nl ++
                         "Question: " ++ question qa ++ nl ++
                         "Answer: " ++ answer qa ++ nl ++
                         "ID: " ++ qa_id qa)
                      (enumerate_from 1 (qa_pairs response))))
  end.

(** [[UUID(qa_id) for qa_id in qa_ids]]: the parsed identifiers, or the
    message of the ValueError raised for the first one that does not
    parse. *)
Fixpoint parse_uuid_list (env : tool_env) (qa_ids : list string)
    : string + list string :=
  match qa_ids with
  | [] => inr []
  | s :: r =>
      match parse_uuid env s with
      | None => inl (uuid_error env s)
      | Some u =>
          match parse_uuid_list env r with
          | inl msg => inl msg
          | inr us => inr (u :: us)
          end
      end
  end.

(** Every identifier parses; [Some] of the parsed list. *)
Definition parse_uuids (env : tool_env) (qa_ids : list string) : option (list string) :=
  match parse_uuid_list env qa_ids with
  | inl _ => None
  | inr us => Some us
  end.

(** [get_qa_by_ids] (tools.py 46-78). *)
Definition get_qa_by_ids (env : tool_env) (qa_ids : list string) : result string :=
  match parse_uuid_list env qa_ids with
  | inl msg => Ok ("Invalid UUID format: " ++ msg)
  | inr uuids =>
      match client_get_qa_by_ids env uuids with
      | Err e =>
          if is_value_error (exn_kind_of e)
          then Ok ("Invalid UUID format: " ++ exn_msg e)
          else Ok ("Error retrieving Q&A pairs: " ++ exn_msg e)
      | Ok [] => Ok "No Q&A pairs found for the provided IDs."
      | Ok pairs =>
          Ok (String.concat (nl ++ nl)
                (map (fun qa => "ID: " ++ qa_id qa ++ nl ++
                                "Question: " ++ question qa ++ nl ++
                                "Answer: " ++ answer qa) pairs))
      end
  end.

(** Line 109, [return await search_knowledge_base(query, top_k)], inside the
    [except NotImplementedError] handler. After [@tool] the name
    [search_knowledge_base] denotes a LangChain [StructuredTool], not the
    coroutine: calling it positionally goes through [BaseTool.__call__
    (tool_input, callbacks)] (a non-zero [top_k] is taken as the callbacks
    and rejected; with [top_k = 0] [run] reaches [StructuredTool._run],
    which raises NotImplementedError for a coroutine-only tool), or, in
    LangChain versions without [__call__], the object is not callable;
    a string result could not be awaited either. An exception raised inside
    an [except] handler is not caught by the sibling [except Exception]
    clause, so it leaves the tool. *)
Definition call_search_tool_object (query : string) (top_k : Z) : result string :=
  Err {| exn_kind_of := OtherError;
         exn_msg := "StructuredTool object called as a coroutine function" |}.

(** [semantic_search_knowledge_base] (tools.py 81-111). *)
Definition semantic_search_knowledge_base (env : tool_env) (query : string) (top_k : Z)
    : result string :=
  match semantic_search_qa env query top_k with
  | Err e =>
      match exn_kind_of e with
      | NotImplementedErr => call_search_tool_object query top_k
      | _ => Ok ("Error in semantic search: " ++ exn_msg e)
      end
  | Ok response =>
      if Z.eqb (count response) 0
      then Ok "No semantically similar information found."
      else Ok (String.concat (nl ++ nl)
                 (map (fun '(i, qa) =>
                         "Result " ++ py_str_int i ++ ":" ++ nl ++
                         "Question: " ++ question qa ++ nl ++
                         "Answer: " ++ answer qa)
                      (enumerate_from 1 (qa_pairs response))))
  end.

(** [list_knowledge_base_topics] (tools.py 114-140). *)
Definition list_knowledge_base_topics (env : tool_env) : result string :=
  match search_qa env "" 100 with
  | Err e => Ok ("Error listing topics: " ++ exn_msg e)
  | Ok response =>
      if Z.eqb (count response) 0
      then Ok "The knowledge base is currently empty. No Q&A pairs have been added yet."
      else Ok ("📚 Knowledge Base Contents (" ++ py_str_int (count response) ++
               " Q&A pairs):" ++ nl ++ nl ++
               String.concat nl
                 (map (fun '(i, qa) =>
                         py_str_int i ++ ". " ++ question qa ++
                         " (ID: " ++ qa_id qa ++ ")")
                      (enumerate_from 1 (qa_pairs response))))
  end.

(** Messages the event loop saves: a tool-calling assistant message with
    [content: null], or a tool result. *)
Definition loop_message (m : message) : Prop :=
  (msg_role m = RAssistant /\ raw_content (msg_raw m) = Null /\
   exists tcs l, nonempty_tool_calls (msg_raw m) = Some tcs /\
                 convert_tool_calls tcs = Some l)
  \/ (msg_role m = RTool /\ exists c i n, msg_raw m = tool_result_msg c i n).

Definition args_ok (tcs : list tool_call) : Prop :=
  Forall (fun tc => tc_arguments tc <> None) tcs.

Definition is_error_event (e : stream_event) : bool :=
  match e with EvError _ => true | _ => false end.

Definition no_error_event (l : list stream_event) : Prop :=
  forallb (fun e => negb (is_error_event e)) l = true.

(** The record saved for the user message (lines 165-172). *)
Definition user_record (user_message : string) : message :=
  {| msg_role := RUser; msg_content := Some user_message;
     msg_tool_call_id := None; msg_raw := user_msg_dict user_message |}.

(** The final, content-only assistant message (lines 311-322). *)
Definition final_message (m : message) : Prop :=
  msg_role m = RAssistant /\ exists c, msg_raw m = final_assistant_msg c.

Definition is_human_turn (t : turn) : bool :=
  match t with HumanMessage _ => true | _ => false end.

(** An agent runtime whose event stream delivers [evs] and then raises [e],
    whatever the history it is given. *)
Definition raising_agent (evs : list agent_event) (e : string)
    : list turn -> list agent_event * stream_end :=
  fun _ => (evs, StreamRaise e).

(** A concrete uuid supply for examples. *)
Definition demo_uuid8 (n : nat) : string :=
  match n with
  | 0 => "3f2a9c1e"
  | 1 => "b7d04e55"
  | _ => "0c91aa47"
  end.

(** A persisted log whose assistant message stores tool-call arguments that
    [json.loads] rejects. *)
Definition malformed_log : list message :=
  [user_hi;
   {| msg_role := RAssistant; msg_content := None; msg_tool_call_id := None;
      msg_raw := {| raw_content := Null;
                    raw_tool_calls := Val [{| tc_id := "c1";
                                              tc_name := "search_knowledge_base";
                                              tc_arguments := None |}];
                    raw_tool_call_id := Absent; raw_name := Absent |} |}].

(** Case-insensitive occurrence of a lower-case [needle] in [s]: some
    window of [s] equals [needle] once its letters are lower-cased. *)
Definition ci_contains (s needle : string) : Prop :=
  exists i, forall j, (j < String.length needle)%nat ->
    option_map lower_ascii (String.get (i + j) s) = String.get j needle.

Definition failure_phrases : list string := ["no relevant"; "not found"; "error"].

(** Identifiers carried by the [tool]-role messages an invocation saved. *)
Definition saved_tool_result_ids (tr : list effect) : list (option string) :=
  flat_map (fun m => match msg_role m with RTool => [msg_tool_call_id m] | _ => [] end)
           (saved_messages tr).

(** An agent that requests [search_knowledge_base] twice before either
    call completes. *)
Definition two_parallel_searches : list turn -> list agent_event * stream_end :=
  fun _ => ([OnToolStart "search_knowledge_base" ([("query", JStr "docker")]);
             OnToolStart "search_knowledge_base" ([("query", JStr "compose")]);
             OnToolEnd "search_knowledge_base" "Result 1: docker";
             OnToolEnd "search_knowledge_base" "Result 1: compose"], StreamDone).

(** The spec's scenario: one search that finds nothing. *)
Definition empty_search : list turn -> list agent_event * stream_end :=
  fun _ => ([OnToolStart "search_knowledge_base" ([("query", JStr "Docker")]);
             OnToolEnd "search_knowledge_base" "No relevant information found."],
            StreamDone).

(** A backend holding one Q&A pair, for examples; [pinecone] is
    [settings.use_pinecone]. UUID parsing here accepts the 36-character
    form only. *)
Definition docker_qa : qa_pair :=
  {| qa_id := "5b0c1d2e-0000-4000-8000-000000000001";
     question := "What is Docker?";
     answer := "A container platform." |}.

Definition demo_env (pinecone : bool) : tool_env :=
  {| post_search_qa := fun _ => inl {| qa_pairs := [docker_qa]; count := 1 |};
     post_get_qa_by_ids := fun _ => inl [docker_qa];
     parse_uuid := fun s => if Nat.eqb (String.length s) 36 then Some s else None;
     uuid_error := fun _ => "badly formed hexadecimal UUID string";
     use_pinecone := pinecone |}.

(** ** Further observations of an invocation *)

(** The tool requests among the agent's events: capability name and input. *)
Definition tool_starts (evs : list agent_event) : list (string * list (string * json)) :=
  flat_map (fun ev => match ev with OnToolStart n i => [(n, i)] | _ => [] end) evs.

(** The calls that a sequence of tool requests receives when the uuid supply
    stands at [n]: the k-th request gets [uuid8 (n + k)]. *)
Fixpoint number_calls (uuid8 : nat -> string) (n : nat)
    (starts : list (string * list (string * json))) : list lc_tool_call :=
  match starts with
  | [] => []
  | (name, input) :: r =>
      {| lc_name := name; lc_args := input; lc_id := "call_" ++ uuid8 n |}
      :: number_calls uuid8 (S n) r
  end.

(** The calls announced to the caller by [tool_call_start] events. *)
Definition start_calls (ys : list stream_event) : list lc_tool_call :=
  flat_map (fun y => match y with
                     | EvToolCallStart id name args =>
                         [{| lc_name := name; lc_args := args; lc_id := id |}]
                     | _ => []
                     end) ys.

(** The OpenAI-format record of an announced call. *)
Definition tc_of_lc (c : lc_tool_call) : tool_call :=
  {| tc_id := lc_id c; tc_name := lc_name c; tc_arguments := Some (lc_args c) |}.

(** The LangChain-format call of a stored record with parsed arguments. *)
Definition lc_of_tc (tc : tool_call) : lc_tool_call :=
  {| lc_name := tc_name tc;
     lc_args := match tc_arguments tc with Some a => a | None => [] end;
     lc_id := tc_id tc |}.

(** The [tool_calls] list of a saved assistant message. *)
Definition message_tool_call_lists (m : message) : list (list tool_call) :=
  match msg_role m, raw_tool_calls (msg_raw m) with
  | RAssistant, Val tcs => [tcs]
  | _, _ => []
  end.

Definition saved_tool_call_lists (tr : list effect) : list (list tool_call) :=
  flat_map message_tool_call_lists (saved_messages tr).

(** The text of the [content] events, concatenated. *)
Fixpoint streamed_text (ys : list stream_event) : string :=
  match ys with
  | [] => ""
  | EvContent d :: r => d ++ streamed_text r
  | _ :: r => streamed_text r
  end.

(** What the caller is shown of an event, identifiers and statuses aside. *)
Inductive event_shape : Type :=
| ShContent (data : string)
| ShToolStart (name : string) (args : list (string * json))
| ShToolEnd (name : string)
| ShError.

Definition shape_of (y : stream_event) : event_shape :=
  match y with
  | EvContent d => ShContent d
  | EvToolCallStart _ name args => ShToolStart name args
  | EvToolCallEnd _ name _ _ => ShToolEnd name
  | EvError _ => ShError
  end.

(** The shapes shown for one agent event. *)
Definition expected_shapes (ev : agent_event) : list event_shape :=
  match ev with
  | OnChatModelStream c => if String.eqb c "" then [] else [ShContent c]
  | OnToolStart name input => [ShToolStart name input]
  | OnToolEnd name _ => [ShToolEnd name]
  | OnOther _ => []
  end.

(** The tool calls of a dialogue's assistant turns, in order. *)
Definition dialogue_tool_calls (st : list turn) : list lc_tool_call :=
  flat_map (fun t => match t with AIMessage _ l => l | _ => [] end) st.

(** An agent that writes a sentence, searches, and then answers. *)
Definition search_then_answer : list turn -> list agent_event * stream_end :=
  fun _ => ([OnChatModelStream "Let me check. ";
             OnToolStart "search_knowledge_base" ([("query", JStr "Docker")]);
             OnToolEnd "search_knowledge_base" "Result 1: Docker";
             OnOther "on_chain_end";
             OnChatModelStream "";
             OnChatModelStream "Docker is a container platform."], StreamDone).

(** A backend whose [get-qa-by-ids] endpoint answers with a body that is
    not JSON ([response.json()] raises). *)
Definition broken_body_env : tool_env :=
  {| post_search_qa := post_search_qa (demo_env false);
     post_get_qa_by_ids := fun _ => inr (BJSONDecodeError, "Expecting value: line 1 column 1 (char 0)");
     parse_uuid := parse_uuid (demo_env false);
     uuid_error := uuid_error (demo_env false);
     use_pinecone := false |}.

(** * Properties *)

(** ** History reconstruction *)

Lemma convert_tool_calls_ids tcs l :
  convert_tool_calls tcs = Some l -> map lc_id l = map tc_id tcs.
Proof.
  revert l; induction tcs as [|tc tcs IH]; intros l H; simpl in H.
  - injection H as <-; reflexivity.
  - destruct (tc_arguments tc); [|discriminate].
    destruct (convert_tool_calls tcs) as [l'|] eqn:E; [|discriminate].
    injection H as <-; simpl; f_equal; apply IH; reflexivity.
Qed.

Lemma convert_message_tool_ids m ts :
  convert_message m = Some ts ->
  dialogue_tool_call_ids ts =
  match msg_role m, nonempty_tool_calls (msg_raw m) with
  | RAssistant, Some tcs => map tc_id tcs
  | _, _ => []
  end.
Proof.
  unfold convert_message; intros H.
  destruct (msg_role m).
  - destruct (dict_get _ _); [|discriminate]; injection H as <-; reflexivity.
  - destruct (nonempty_tool_calls (msg_raw m)) as [tcs|].
    + destruct (convert_tool_calls tcs) as [l|] eqn:E; [|discriminate].
      injection H as <-; simpl; rewrite app_nil_r; apply convert_tool_calls_ids, E.
    + destruct (dict_get _ _); [|discriminate]; injection H as <-; reflexivity.
  - destruct (dict_get (raw_content (msg_raw m)) ""),
      (dict_get (raw_tool_call_id (msg_raw m)) "");
      try discriminate; injection H as <-; reflexivity.
  - injection H as <-; reflexivity.
Qed.

Lemma load_app a b :
  load_conversation_history (app a b) =
  match load_conversation_history a, load_conversation_history b with
  | Some x, Some y => Some (app x y)
  | _, _ => None
  end.
Proof.
  induction a as [|m a IH]; simpl.
  - destruct (load_conversation_history b); reflexivity.
  - destruct (convert_message m) as [ts|]; [|reflexivity].
    rewrite IH.
    destruct (load_conversation_history a), (load_conversation_history b);
      try reflexivity.
    rewrite app_assoc; reflexivity.
Qed.

Lemma dialogue_tool_call_ids_app x y :
  dialogue_tool_call_ids (app x y) =
  app (dialogue_tool_call_ids x) (dialogue_tool_call_ids y).
Proof. unfold dialogue_tool_call_ids; apply flat_map_app. Qed.

Lemma convert_message_no_system m ts :
  convert_message m = Some ts -> forallb (fun t => negb (is_system_turn t)) ts = true.
Proof.
  unfold convert_message; intros H.
  destruct (msg_role m).
  - destruct (dict_get _ _); [|discriminate]; injection H as <-; reflexivity.
  - destruct (nonempty_tool_calls (msg_raw m)) as [tcs|].
    + destruct (convert_tool_calls tcs); [|discriminate]; injection H as <-; reflexivity.
    + destruct (dict_get _ _); [|discriminate]; injection H as <-; reflexivity.
  - destruct (dict_get (raw_content (msg_raw m)) ""),
      (dict_get (raw_tool_call_id (msg_raw m)) "");
      try discriminate; injection H as <-; reflexivity.
  - injection H as <-; reflexivity.
Qed.

Lemma load_no_system log :
  match load_conversation_history log with
  | Some st => forallb (fun t => negb (is_system_turn t)) st = true
  | None => True
  end.
Proof.
  induction log as [|m log IH]; simpl; [reflexivity|].
  destruct (convert_message m) as [ts|] eqn:E; [|exact I].
  destruct (load_conversation_history log) as [st|]; [|exact I].
  rewrite forallb_app, (convert_message_no_system _ _ E), IH; reflexivity.
Qed.

Lemma load_filter_system log :
  load_conversation_history log =
  load_conversation_history (filter (fun m => negb (is_system_message m)) log).
Proof.
  induction log as [|m log IH]; simpl; [reflexivity|].
  unfold is_system_message at 1.
  destruct (msg_role m) eqn:R; simpl; rewrite <- IH;
    try (unfold convert_message; rewrite R; reflexivity).
  unfold convert_message; rewrite R; simpl.
  destruct (load_conversation_history log); reflexivity.
Qed.

(** C1 (as amended): reconstruction keeps every tool call of every assistant
    message whose payload has a non-empty [tool_calls] list, answered or not:
    the tool-call identifiers of the reconstructed dialogue are exactly those
    of the log's assistant messages, in order. For the log
    [user "hi", assistant{tool_calls:[c1], content:null}] it returns the user
    turn followed by an assistant turn with content "" carrying c1. *)
Theorem load_keeps_every_tool_call :
  (forall log,
     match load_conversation_history log with
     | Some st => dialogue_tool_call_ids st = assistant_tool_call_ids log
     | None => True
     end) /\
  load_conversation_history orphan_log =
    Some [HumanMessage "hi";
          AIMessage "" [{| lc_name := "search_knowledge_base";
                           lc_args := [("query", JStr "hi")];
                           lc_id := "c1" |}]].
Proof.
  split; [|reflexivity].
  induction log as [|m log IH]; simpl; [reflexivity|].
  destruct (convert_message m) as [ts|] eqn:E; [|exact I].
  destruct (load_conversation_history log) as [st|]; [|exact I].
  rewrite dialogue_tool_call_ids_app, IH, (convert_message_tool_ids _ _ E).
  reflexivity.
Qed.

(** C1 counterexample: on the spec's orphan log (no tool message answers c1)
    the reconstruction is not [user "hi"] alone, and it returns a turn whose
    tool call c1 has no tool-result message in the log. *)
Lemma orphan_tool_call_replayed :
  load_conversation_history orphan_log <> Some [HumanMessage "hi"] /\
  ~ (forall log st,
       load_conversation_history log = Some st ->
       forall i, In i (dialogue_tool_call_ids st) -> In i (tool_result_ids log)).
Proof.
  split; [discriminate|].
  intros H.
  specialize (H orphan_log _ eq_refl "c1").
  simpl in H; destruct H as [].
  left; reflexivity.
Qed.

(** ** The event loop *)

Lemma convert_args_ok tcs :
  args_ok tcs -> exists l, convert_tool_calls tcs = Some l.
Proof.
  induction 1 as [|tc tcs Htc _ [l IH]]; simpl; [eauto|].
  destruct (tc_arguments tc); [|congruence].
  rewrite IH; eauto.
Qed.

Lemma saved_messages_app a b :
  saved_messages (app a b) = app (saved_messages a) (saved_messages b).
Proof. unfold saved_messages; apply flat_map_app. Qed.

Lemma yields_app a b : yields (app a b) = app (yields a) (yields b).
Proof. unfold yields; apply flat_map_app. Qed.

Lemma no_error_event_app a b :
  no_error_event a -> no_error_event b -> no_error_event (app a b).
Proof. unfold no_error_event; rewrite forallb_app; intros -> ->; reflexivity. Qed.

Ltac trace_shape :=
  repeat rewrite <- app_assoc; simpl;
  eexists; split; [reflexivity|]; simpl.

Lemma args_ok_snoc l tc :
  args_ok l -> tc_arguments tc <> None -> args_ok (app l [tc]).
Proof. intros H1 H2; apply Forall_app; split; [exact H1|repeat constructor; exact H2]. Qed.

(** The tool-calling assistant message saved for a non-empty call list. *)
Lemma loop_message_assistant tcs :
  tcs <> [] -> args_ok tcs ->
  loop_message {| msg_role := RAssistant; msg_content := None;
                  msg_tool_call_id := None; msg_raw := assistant_with_tools tcs |}.
Proof.
  intros Hne Hok; left; simpl; split; [reflexivity|split; [reflexivity|]].
  destruct (convert_args_ok _ Hok) as [lc Hlc].
  exists tcs, lc; split; [|exact Hlc].
  destruct tcs; [congruence|reflexivity].
Qed.

Lemma step_extends uuid8 st ev :
  args_ok (current_tool_calls st) ->
  exists l, trace (step uuid8 st ev) = app (trace st) (EConsume ev :: l) /\
            Forall loop_message (saved_messages l) /\
            no_error_event (yields l) /\
            args_ok (current_tool_calls (step uuid8 st ev)).
Proof.
  intros Hok.
  destruct ev as [c|name input|name output|kind]; unfold step, emit; simpl.
  - destruct (String.eqb c "").
    + trace_shape. repeat split; auto; constructor.
    + trace_shape. repeat split; auto; constructor.
  - assert (Hnew : tc_arguments {| tc_id := "call_" ++ uuid8 (next_uuid st);
                                   tc_name := name;
                                   tc_arguments := Some input |} <> None)
      by discriminate.
    destruct (tool_call_assistant_saved st);
      [|destruct (current_tool_calls st) as [|tc0 tcs0] eqn:Ecur];
      unfold save_message, emit; simpl; trace_shape.
    + assert (Hc := args_ok_snoc [] _ (Forall_nil _) Hnew).
      split; [|split; [reflexivity|exact Hc]].
      constructor; [|constructor].
      apply loop_message_assistant; [discriminate|exact Hc].
    + assert (Hc := args_ok_snoc [] _ (Forall_nil _) Hnew).
      split; [|split; [reflexivity|exact Hc]].
      constructor; [|constructor].
      apply loop_message_assistant; [discriminate|exact Hc].
    + assert (Hc := args_ok_snoc (tc0 :: tcs0) _ Hok Hnew).
      split; [|split; [reflexivity|exact Hc]].
      constructor; [|constructor].
      apply loop_message_assistant; [discriminate|exact Hc].
  - destruct (find (fun tc => String.eqb (tc_name tc) name) (current_tool_calls st))
      as [tc|]; unfold save_message, emit; simpl; trace_shape.
    + split; [|split; [reflexivity|exact Hok]].
      constructor; [|constructor].
      right; simpl; split; [reflexivity|eauto].
    + split; [constructor|split; [reflexivity|exact Hok]].
  - trace_shape. repeat split; auto; constructor.
Qed.

Lemma run_events_extends uuid8 evs st :
  args_ok (current_tool_calls st) ->
  exists l, trace (run_events uuid8 st evs) = app (trace st) l /\
            Forall loop_message (saved_messages l) /\
            no_error_event (yields l) /\
            args_ok (current_tool_calls (run_events uuid8 st evs)).
Proof.
  unfold run_events; revert st; induction evs as [|ev evs IH]; intros st Hok; simpl.
  - exists []; rewrite app_nil_r; repeat split; [constructor|exact Hok].
  - destruct (step_extends uuid8 st ev Hok) as (l1 & E1 & S1 & Y1 & O1).
    destruct (IH _ O1) as (l2 & E2 & S2 & Y2 & O2).
    exists (app (EConsume ev :: l1) l2).
    rewrite E2, E1, app_assoc; split; [reflexivity|].
    rewrite saved_messages_app, yields_app; split; [|split; [|exact O2]].
    + apply Forall_app; split; [exact S1|exact S2].
    + apply no_error_event_app; [exact Y1|exact Y2].
Qed.

(** ** One invocation of [chat] *)

Lemma invoked_state_trace h u :
  trace (invoked_state h u) = [ELoad; ESave (user_record u); EInvoke (chat_history h u)].
Proof. reflexivity. Qed.

Lemma chat_shape uuid8 log agent u :
  match load_conversation_history log with
  | None => chat uuid8 log agent u = ([ELoad], Some load_error)
  | Some h =>
      exists l,
        fst (chat uuid8 log agent u) =
          ELoad :: ESave (user_record u) :: EInvoke (chat_history h u) :: l /\
        no_error_event (yields l) /\
        Forall (fun m => loop_message m \/ final_message m) (saved_messages l) /\
        (forall e, snd (agent (chat_history h u)) = StreamRaise e ->
           snd (chat uuid8 log agent u) = Some e /\
           fst (chat uuid8 log agent u) =
             trace (run_events uuid8 (invoked_state h u) (fst (agent (chat_history h u)))) /\
           Forall loop_message (saved_messages l)) /\
        (snd (agent (chat_history h u)) = StreamDone -> snd (chat uuid8 log agent u) = None)
  end.
Proof.
  unfold chat; destruct (load_conversation_history log) as [h|]; [|reflexivity].
  destruct (agent (chat_history h u)) as [evs ending]; simpl.
  destruct (run_events_extends uuid8 evs (invoked_state h u) (Forall_nil _))
    as (l & E & S & Y & _).
  rewrite invoked_state_trace in E.
  destruct ending as [|e].
  - destruct (String.eqb (final_response (run_events uuid8 (invoked_state h u) evs)) "").
    + exists l; simpl; rewrite E.
      split; [reflexivity|split; [exact Y|split; [|split]]].
      * eapply Forall_impl; [|exact S]; auto.
      * intros e' H'; discriminate.
      * reflexivity.
    + exists (app l [ESave {| msg_role := RAssistant;
                             msg_content := Some (final_response
                                              (run_events uuid8 (invoked_state h u) evs));
                             msg_tool_call_id := None;
                             msg_raw := final_assistant_msg (final_response
                                              (run_events uuid8 (invoked_state h u) evs)) |}]).
      unfold save_message, emit; simpl; rewrite E; simpl.
      split; [reflexivity|].
      rewrite yields_app, saved_messages_app; simpl; rewrite app_nil_r.
      split; [exact Y|split; [|split]].
      * apply Forall_app; split; [eapply Forall_impl; [|exact S]; auto|].
        constructor; [|constructor]; right; split; [reflexivity|eexists; reflexivity].
      * intros e' H'; discriminate.
      * reflexivity.
  - exists l; simpl; rewrite E.
    split; [reflexivity|split; [exact Y|split; [|split]]].
    + eapply Forall_impl; [|exact S]; auto.
    + intros e' H'; injection H' as <-; auto.
    + discriminate.
Qed.

Lemma saved_message_reloads m :
  loop_message m \/ final_message m ->
  exists ts, convert_message m = Some ts /\
             forallb (fun t => negb (is_human_turn t)) ts = true.
Proof.
  intros [[[R [C (tcs & l & T & L)]] | [R (c & i & n & Raw)]] | [R [c Raw]]];
    unfold convert_message.
  - rewrite R, T, L, C; eexists; split; reflexivity.
  - rewrite R, Raw; simpl; eexists; split; reflexivity.
  - rewrite R, Raw; simpl; eexists; split; reflexivity.
Qed.

Lemma saved_messages_reload ms :
  Forall (fun m => loop_message m \/ final_message m) ms ->
  exists t, load_conversation_history ms = Some t /\
            forallb (fun t => negb (is_human_turn t)) t = true.
Proof.
  induction 1 as [|m ms Hm _ [t [Ht Hn]]]; simpl; [eexists; split; reflexivity|].
  destruct (saved_message_reloads m Hm) as [ts [Hts Hnts]].
  rewrite Hts, Ht; eexists; split; [reflexivity|].
  rewrite forallb_app, Hnts, Hn; reflexivity.
Qed.

Lemma with_system_prompt_no_system h :
  forallb (fun t => negb (is_system_turn t)) h = true ->
  with_system_prompt h = SystemMessage SYSTEM_PROMPT :: h.
Proof.
  destruct h as [|t h]; simpl; [reflexivity|].
  destruct (is_system_turn t); simpl; [discriminate|reflexivity].
Qed.

(** C3: when the agent's event stream raises [e] after delivering [evs],
    the client receives the events yielded for [evs] followed by exactly one
    [error] event carrying [e] (the yielded events contain none); every
    message saved while consuming any prefix of [evs] stays saved, the trace
    ending with the processing of [evs] (no final assistant message: every
    saved message is the user message or one saved by the loop, a tool
    call or a tool result). A failed history load also ends the stream with
    one error event. *)
Theorem agent_failure_ends_with_error_event :
  forall uuid8 log u evs e,
    let agent := raising_agent evs e in
    match load_conversation_history log with
    | Some h =>
        generate uuid8 log agent u =
          app (yields (fst (chat uuid8 log agent u))) [EvError e] /\
        no_error_event (yields (fst (chat uuid8 log agent u))) /\
        fst (chat uuid8 log agent u) = trace (run_events uuid8 (invoked_state h u) evs) /\
        (forall n, exists rest,
           fst (chat uuid8 log agent u) =
             app (trace (run_events uuid8 (invoked_state h u) (firstn n evs))) rest) /\
        Forall (fun m => m = user_record u \/ loop_message m)
               (saved_messages (fst (chat uuid8 log agent u)))
    | None => generate uuid8 log agent u = [EvError load_error]
    end.
Proof.
  intros uuid8 log u evs e agent.
  pose proof (chat_shape uuid8 log agent u) as Hs.
  destruct (load_conversation_history log) as [h|] eqn:L.
  - destruct Hs as (l & E & Y & _ & R & _).
    destruct (R e eq_refl) as (Err & Tr & S).
    unfold generate.
    destruct (chat uuid8 log agent u) as [tr err]; simpl in *; subst err.
    rewrite E in *.
    split; [reflexivity|].
    split; [exact Y|].
    split; [exact Tr|].
    split.
    + intros n; rewrite Tr.
      pose proof (run_events_extends uuid8 (firstn n evs) (invoked_state h u)
                    (Forall_nil _)) as (_ & _ & _ & _ & Ok1).
      destruct (run_events_extends uuid8 (skipn n evs)
                  (run_events uuid8 (invoked_state h u) (firstn n evs)) Ok1)
        as (rest & Er & _).
      exists rest; rewrite <- Er.
      unfold run_events; rewrite <- fold_left_app, firstn_skipn; reflexivity.
    + simpl; constructor; [left; reflexivity|].
      eapply Forall_impl; [|exact S]; auto.
  - unfold generate; rewrite Hs; reflexivity.
Qed.

(** C8: the agent is invoked with the reconstructed history, preceded by the
    fixed system turn exactly when that history is empty or does not start
    with a system turn, followed by the user turn; for an empty conversation
    the reconstruction is empty and the agent receives exactly the system
    turn and the user turn. *)
Theorem system_turn_prepended_when_missing :
  (forall uuid8 log agent u,
     match load_conversation_history log with
     | Some h =>
         exists rest,
           fst (chat uuid8 log agent u) =
             ELoad :: ESave (user_record u) ::
             EInvoke (app (if match h with
                              | [] => true
                              | t :: _ => negb (is_system_turn t)
                              end
                           then SystemMessage SYSTEM_PROMPT :: h else h)
                          [HumanMessage u]) :: rest
     | None => fst (chat uuid8 log agent u) = [ELoad]
     end) /\
  load_conversation_history [] = Some [] /\
  (forall uuid8 agent,
     exists rest,
       fst (chat uuid8 [] agent "What is Docker?") =
         ELoad :: ESave (user_record "What is Docker?") ::
         EInvoke [SystemMessage SYSTEM_PROMPT; HumanMessage "What is Docker?"] :: rest).
Proof.
  split; [|split; [reflexivity|]].
  - intros uuid8 log agent u.
    pose proof (chat_shape uuid8 log agent u) as Hs.
    destruct (load_conversation_history log) as [h|]; [|rewrite Hs; reflexivity].
    destruct Hs as (l & E & _); exists l; rewrite E.
    unfold chat_history, with_system_prompt.
    destruct h as [|t h]; reflexivity.
  - intros uuid8 agent.
    destruct (chat_shape uuid8 [] agent "What is Docker?") as (l & E & _).
    exists l; exact E.
Qed.

(** C10: reconstruction ignores [system]-role messages (removing them from
    the log does not change it) and never produces a system turn, so the
    agent always receives the fixed system turn followed by the reconstructed
    history and the user turn; and no message saved by an invocation has the
    [system] role. *)
Theorem system_messages_omitted_and_prompt_prepended :
  (forall log,
     load_conversation_history log =
     load_conversation_history (filter (fun m => negb (is_system_message m)) log)) /\
  (forall log,
     match load_conversation_history log with
     | Some st => forallb (fun t => negb (is_system_turn t)) st = true
     | None => True
     end) /\
  (forall uuid8 log agent u,
     match load_conversation_history log with
     | Some h =>
         exists rest,
           fst (chat uuid8 log agent u) =
             ELoad :: ESave (user_record u) ::
             EInvoke (SystemMessage SYSTEM_PROMPT :: app h [HumanMessage u]) :: rest
     | None => True
     end) /\
  (forall uuid8 log agent u,
     Forall (fun m => msg_role m <> RSystem) (saved_messages (fst (chat uuid8 log agent u)))).
Proof.
  split; [exact load_filter_system|split; [exact load_no_system|split]].
  - intros uuid8 log agent u.
    pose proof (chat_shape uuid8 log agent u) as Hs.
    pose proof (load_no_system log) as Hn.
    destruct (load_conversation_history log) as [h|]; [|exact I].
    destruct Hs as (l & E & _); exists l; rewrite E.
    unfold chat_history; rewrite (with_system_prompt_no_system h Hn); reflexivity.
  - intros uuid8 log agent u.
    pose proof (chat_shape uuid8 log agent u) as Hs.
    destruct (load_conversation_history log) as [h|].
    + destruct Hs as (l & E & _ & S & _); rewrite E; simpl.
      constructor; [discriminate|].
      eapply Forall_impl; [|exact S].
      intros m [[[R _]|[R _]]|[R _]]; rewrite R; discriminate.
    + rewrite Hs; constructor.
Qed.

(** ** Tool completion events *)

Lemma step_tool_end_trace uuid8 st name output :
  exists l,
    trace (step uuid8 st (OnToolEnd name output)) =
      app (trace st) (EConsume (OnToolEnd name output) :: l) /\
    saved_messages l =
      match find (fun tc => String.eqb (tc_name tc) name) (current_tool_calls st) with
      | Some tc => [{| msg_role := RTool; msg_content := Some output;
                       msg_tool_call_id := Some (tc_id tc);
                       msg_raw := tool_result_msg output (tc_id tc) name |}]
      | None => []
      end /\
    yields l =
      [EvToolCallEnd
         (option_map tc_id (find (fun tc => String.eqb (tc_name tc) name)
                                 (current_tool_calls st)))
         name (if is_success output then "success" else "error")
         (output_preview output)].
Proof.
  unfold step, emit; simpl.
  destruct (find (fun tc => String.eqb (tc_name tc) name) (current_tool_calls st));
    unfold save_message, emit; simpl;
    repeat rewrite <- app_assoc; simpl;
    eexists; (split; [reflexivity|split; reflexivity]).
Qed.

Lemma step_tool_end_yields uuid8 st name output :
  yields (trace (step uuid8 st (OnToolEnd name output))) =
  app (yields (trace st))
    [EvToolCallEnd
       (option_map tc_id (find (fun tc => String.eqb (tc_name tc) name)
                               (current_tool_calls st)))
       name (if is_success output then "success" else "error")
       (output_preview output)].
Proof.
  destruct (step_tool_end_trace uuid8 st name output) as (l & E & _ & Y).
  rewrite E, yields_app; simpl; rewrite Y; reflexivity.
Qed.

(** What a step does to [current_tool_calls] and the saved flag. *)
Lemma step_current_tool_calls uuid8 st ev :
  (current_tool_calls (step uuid8 st ev), tool_call_assistant_saved (step uuid8 st ev)) =
  match ev with
  | OnToolStart name input =>
      (app (if tool_call_assistant_saved st then [] else current_tool_calls st)
           [{| tc_id := "call_" ++ uuid8 (next_uuid st); tc_name := name;
               tc_arguments := Some input |}], true)
  | _ => (current_tool_calls st, tool_call_assistant_saved st)
  end.
Proof.
  destruct ev as [c|name input|name output|kind]; unfold step, emit; simpl.
  - destruct (String.eqb c ""); reflexivity.
  - destruct (tool_call_assistant_saved st);
      [|destruct (current_tool_calls st)]; reflexivity.
  - destruct (find _ _); reflexivity.
  - reflexivity.
Qed.

Lemma run_events_at_most_one_call uuid8 evs st :
  (tool_call_assistant_saved st = false -> current_tool_calls st = []) ->
  (length (current_tool_calls st) <= 1)%nat ->
  (tool_call_assistant_saved (run_events uuid8 st evs) = false ->
   current_tool_calls (run_events uuid8 st evs) = []) /\
  (length (current_tool_calls (run_events uuid8 st evs)) <= 1)%nat.
Proof.
  unfold run_events; revert st; induction evs as [|ev evs IH]; intros st H1 H2;
    simpl; [auto|].
  pose proof (step_current_tool_calls uuid8 st ev) as E.
  revert E; generalize (step uuid8 st ev) as st'; intros st' E.
  apply IH.
  - destruct ev; injection E as E1 E2; rewrite E1, E2; auto; discriminate.
  - destruct ev; injection E as E1 E2; rewrite E1; auto.
    destruct (tool_call_assistant_saved st); simpl; auto.
    rewrite (H1 eq_refl); simpl; auto.
Qed.

(** C2 (as amended): a tool completion is paired with the first entry of
    [current_tool_calls] with the same capability name, with no record of
    earlier matches; when there is one, a tool-role message with the output,
    that entry's identifier and the name is saved in the same step, and
    otherwise nothing is saved. Each tool request after a saved one resets
    [current_tool_calls], so from the start of an invocation it holds at
    most one call, the latest requested: completions of two pending
    same-name calls are both paired with the later call's identifier. *)
Theorem tool_end_pairs_with_first_same_name_entry :
  (forall uuid8 st name output,
     current_tool_calls (step uuid8 st (OnToolEnd name output)) = current_tool_calls st /\
     exists l,
       trace (step uuid8 st (OnToolEnd name output)) =
         app (trace st) (EConsume (OnToolEnd name output) :: l) /\
       saved_messages l =
         match find (fun tc => String.eqb (tc_name tc) name) (current_tool_calls st) with
         | Some tc => [{| msg_role := RTool; msg_content := Some output;
                          msg_tool_call_id := Some (tc_id tc);
                          msg_raw := tool_result_msg output (tc_id tc) name |}]
         | None => []
         end) /\
  (forall uuid8 st name input,
     current_tool_calls (step uuid8 st (OnToolStart name input)) =
       app (if tool_call_assistant_saved st then [] else current_tool_calls st)
           [{| tc_id := "call_" ++ uuid8 (next_uuid st); tc_name := name;
               tc_arguments := Some input |}] /\
     tool_call_assistant_saved (step uuid8 st (OnToolStart name input)) = true) /\
  (forall uuid8 h u evs,
     (length (current_tool_calls (run_events uuid8 (invoked_state h u) evs)) <= 1)%nat).
Proof.
  split; [|split].
  - intros uuid8 st name output.
    pose proof (step_current_tool_calls uuid8 st (OnToolEnd name output)) as E.
    injection E as E _; split; [exact E|].
    destruct (step_tool_end_trace uuid8 st name output) as (l & T & S & _).
    exists l; split; [exact T|exact S].
  - intros uuid8 st name input.
    pose proof (step_current_tool_calls uuid8 st (OnToolStart name input)) as E.
    injection E as E1 E2; split; [exact E1|exact E2].
  - intros uuid8 h u evs.
    apply run_events_at_most_one_call; [reflexivity|simpl; auto].
Qed.

(** C2 counterexample: two pending [search_knowledge_base] calls (their
    start events carry call_3f2a9c1e and call_b7d04e55); both completions
    are saved with the identifier of the second call. *)
Lemma parallel_same_name_calls_share_identifier :
  yields (fst (chat demo_uuid8 [] two_parallel_searches "docker compose?")) =
    [EvToolCallStart "call_3f2a9c1e" "search_knowledge_base" ([("query", JStr "docker")]);
     EvToolCallStart "call_b7d04e55" "search_knowledge_base" ([("query", JStr "compose")]);
     EvToolCallEnd (Some "call_b7d04e55") "search_knowledge_base" "success" "Result 1: docker";
     EvToolCallEnd (Some "call_b7d04e55") "search_knowledge_base" "success" "Result 1: compose"] /\
  saved_tool_result_ids (fst (chat demo_uuid8 [] two_parallel_searches "docker compose?")) =
    [Some "call_b7d04e55"; Some "call_b7d04e55"].
Proof. split; vm_compute; reflexivity. Qed.

(** ** Text lemmas *)

Lemma py_prefix_all s n :
  (py_len s <= n)%nat -> py_prefix n s = s.
Proof.
  revert n; induction s as [|c s IH]; intros n H; simpl in *; [reflexivity|].
  destruct (is_continuation c).
  - rewrite IH; [reflexivity|exact H].
  - destruct n as [|n]; [lia|rewrite IH; [reflexivity|lia]].
Qed.

Lemma py_prefix_length s n :
  (n <= py_len s)%nat -> py_len (py_prefix n s) = n.
Proof.
  revert n; induction s as [|c s IH]; intros n H; simpl in *.
  - destruct n; [reflexivity|lia].
  - destruct (is_continuation c) eqn:C.
    + simpl; rewrite C; apply IH, H.
    + destruct n as [|n]; [reflexivity|simpl; rewrite C, IH; [reflexivity|lia]].
Qed.

Lemma py_prefix_is_prefix s n : String.prefix (py_prefix n s) s = true.
Proof.
  revert n; induction s as [|c s IH]; intros n; simpl; [reflexivity|].
  destruct (is_continuation c).
  - simpl; destruct (ascii_dec c c) as [_|N]; [apply IH|congruence].
  - destruct n as [|n]; [reflexivity|].
    simpl; destruct (ascii_dec c c) as [_|N]; [apply IH|congruence].
Qed.

Lemma get_lower k s :
  String.get k (lower s) = option_map lower_ascii (String.get k s).
Proof.
  revert k; induction s as [|c s IH]; intros [|k]; simpl; auto.
Qed.

Lemma prefix_get p s :
  String.prefix p s = true <->
  (forall j, (j < String.length p)%nat -> String.get j s = String.get j p).
Proof.
  revert s; induction p as [|a p IH]; intros s; simpl.
  - split; [intros _ j H; lia|destruct s; reflexivity].
  - destruct s as [|b s]; simpl.
    + split; [discriminate|]. intros H; specialize (H 0 ltac:(lia)); discriminate.
    + destruct (ascii_dec a b) as [<-|Hab].
      * rewrite IH; split.
        -- intros H [|j] Hj; simpl; [reflexivity|apply H; lia].
        -- intros H j Hj; apply (H (S j)); lia.
      * split; [discriminate|].
        intros H; specialize (H 0 ltac:(lia)); simpl in H.
        injection H as ->; congruence.
Qed.

Lemma contains_nil p : contains EmptyString p = String.prefix p EmptyString.
Proof. destruct p; reflexivity. Qed.

Lemma contains_cons c s p :
  contains (String c s) p = String.prefix p (String c s) || contains s p.
Proof. reflexivity. Qed.

Lemma contains_get s p :
  contains s p = true <->
  exists i, forall j, (j < String.length p)%nat ->
    String.get (i + j) s = String.get j p.
Proof.
  revert p; induction s as [|c s IH]; intros p.
  - rewrite contains_nil, prefix_get; split.
    + intros H; exists 0; exact H.
    + intros [i H] j Hj; specialize (H j Hj); simpl in *; exact H.
  - rewrite contains_cons, orb_true_iff, prefix_get, IH; split.
    + intros [H|[i H]]; [exists 0; exact H|exists (S i); exact H].
    + intros [[|i] H]; [left; exact H|right; exists i; exact H].
Qed.

Lemma is_success_false_iff output :
  is_success output = false <->
  exists phrase, In phrase failure_phrases /\ ci_contains output phrase.
Proof.
  unfold is_success; rewrite negb_false_iff, existsb_exists.
  split; intros [phrase [Hin H]]; exists phrase; split; auto;
    unfold ci_contains in *.
  - apply contains_get in H; destruct H as [i H].
    exists i; intros j Hj; rewrite <- get_lower; apply H, Hj.
  - apply contains_get; destruct H as [i H].
    exists i; intros j Hj; rewrite get_lower; apply H, Hj.
Qed.

(** C6: the [tool_call_end] event of a completion carries the preview: the
    output unchanged when it has at most 300 characters, and otherwise its
    first 300 characters followed by the marker "... (truncated)". *)
Theorem tool_end_preview_truncates_at_300 :
  forall uuid8 st name output,
    exists id status preview,
      yields (trace (step uuid8 st (OnToolEnd name output))) =
        app (yields (trace st)) [EvToolCallEnd id name status preview] /\
      ((py_len output <= 300)%nat -> preview = output) /\
      ((300 < py_len output)%nat ->
         exists p, preview = p ++ "... (truncated)" /\
                   py_len p = 300 /\ String.prefix p output = true).
Proof.
  intros uuid8 st name output.
  do 3 eexists; split; [apply step_tool_end_yields|].
  unfold output_preview; split; intros H.
  - replace (Nat.ltb 300 (py_len output)) with false
      by (symmetry; apply Nat.ltb_ge; exact H).
    apply py_prefix_all, H.
  - replace (Nat.ltb 300 (py_len output)) with true
      by (symmetry; apply Nat.ltb_lt; exact H).
    exists (py_prefix 300 output); split; [reflexivity|].
    split; [apply py_prefix_length; lia|apply py_prefix_is_prefix].
Qed.

(** C7: the status of a completion's [tool_call_end] event is "error"
    exactly when the output contains "no relevant", "not found" or "error"
    case-insensitively, and "success" otherwise; the step yields no
    stream-level [error] event. For the spec's scenario the output
    "No relevant information found." yields status "error". *)
Theorem tool_end_status_heuristic :
  (forall uuid8 st name output,
     exists id status preview,
       yields (trace (step uuid8 st (OnToolEnd name output))) =
         app (yields (trace st)) [EvToolCallEnd id name status preview] /\
       (status = "error" <->
          exists phrase, In phrase failure_phrases /\ ci_contains output phrase) /\
       (status = "success" <->
          ~ exists phrase, In phrase failure_phrases /\ ci_contains output phrase)) /\
  generate demo_uuid8 [] empty_search "What is Docker?" =
    [EvToolCallStart "call_3f2a9c1e" "search_knowledge_base" ([("query", JStr "Docker")]);
     EvToolCallEnd (Some "call_3f2a9c1e") "search_knowledge_base" "error"
       "No relevant information found."].
Proof.
  split; [|vm_compute; reflexivity].
  intros uuid8 st name output.
  do 3 eexists; split; [apply step_tool_end_yields|].
  rewrite <- is_success_false_iff.
  destruct (is_success output); split; split; intros H;
    try reflexivity; try discriminate; try congruence.
Qed.

(** ** Tool catalog *)

(** C5 (code defect): [search_knowledge_base], [get_qa_by_ids] and
    [list_knowledge_base_topics] return a string for every backend
    behaviour and argument, and so does [semantic_search_knowledge_base]
    while [settings.use_pinecone] is off; with it on, the client raises
    NotImplementedError and the fallback of line 109 raises out of the
    tool. *)
Theorem semantic_search_fallback_raises :
  (forall env query limit, exists s, search_knowledge_base env query limit = Ok s) /\
  (forall env qa_ids, exists s, get_qa_by_ids env qa_ids = Ok s) /\
  (forall env, exists s, list_knowledge_base_topics env = Ok s) /\
  (forall env query top_k, use_pinecone env = false ->
     exists s, semantic_search_knowledge_base env query top_k = Ok s) /\
  (forall env query top_k, use_pinecone env = true ->
     exists e, semantic_search_knowledge_base env query top_k = Err e) /\
  semantic_search_knowledge_base (demo_env true) "What is Docker?" 5 =
    Err {| exn_kind_of := OtherError;
           exn_msg := "StructuredTool object called as a coroutine function" |}.
Proof.
  split; [|split; [|split; [|split; [|split]]]].
  - intros env query limit; unfold search_knowledge_base.
    destruct (search_qa env query (Z.min limit 10)) as [r|e]; [|eauto].
    destruct (Z.eqb (count r) 0); eauto.
  - intros env qa_ids; unfold get_qa_by_ids.
    destruct (parse_uuid_list env qa_ids) as [msg|uuids]; [eauto|].
    destruct (client_get_qa_by_ids env uuids) as [[|qa pairs]|e]; eauto.
    destruct (is_value_error (exn_kind_of e)); eauto.
  - intros env; unfold list_knowledge_base_topics.
    destruct (search_qa env "" 100) as [r|e]; [|eauto].
    destruct (Z.eqb (count r) 0); eauto.
  - intros env query top_k H; unfold semantic_search_knowledge_base, semantic_search_qa.
    rewrite H; simpl.
    destruct (search_qa env query top_k) as [r|e] eqn:E.
    + destruct (Z.eqb (count r) 0); eauto.
    + assert (K : exn_kind_of e <> NotImplementedErr).
      { unfold search_qa in *.
        destruct (SearchQARequest query top_k) as [req|e'] eqn:R.
        - destruct (post_search_qa env req) as [r|[k m]]; simpl in *;
            [discriminate|].
          injection E as <-; destruct k; discriminate.
        - revert R; unfold SearchQARequest.
          destruct (_ && _); intros R; [discriminate|].
          injection R as <-; injection E as <-; discriminate. }
      destruct (exn_kind_of e); eauto; congruence.
  - intros env query top_k H; unfold semantic_search_knowledge_base, semantic_search_qa.
    rewrite H; simpl; eexists; reflexivity.
  - reflexivity.
Qed.

(** C9 (code defect): [list_knowledge_base_topics] builds
    [SearchQARequest(query="", limit=100)], which the request model rejects
    ([min_length=1]); the tool therefore returns the same error text for every
    backend, without contacting it, also when the knowledge base holds
    entries that a non-empty search returns. *)
Theorem list_topics_always_rejected :
  SearchQARequest "" 100 = Err (validation_error "SearchQARequest") /\
  (forall env,
     list_knowledge_base_topics env =
       Ok ("Error listing topics: " ++ "1 validation error for SearchQARequest")) /\
  search_qa (demo_env false) "Docker" 100 =
    Ok {| qa_pairs := [docker_qa]; count := 1 |}.
Proof. split; [reflexivity|split; [intros env; reflexivity|reflexivity]]. Qed.

(** ** Further properties: the event loop *)

Lemma string_app_assoc a b c : (a ++ b) ++ c = a ++ (b ++ c).
Proof. induction a as [|x a IH]; simpl; [reflexivity|rewrite IH; reflexivity]. Qed.

Lemma string_app_nil_r a : a ++ "" = a.
Proof. induction a as [|x a IH]; simpl; [reflexivity|rewrite IH; reflexivity]. Qed.

Lemma streamed_text_app a b :
  streamed_text (app a b) = streamed_text a ++ streamed_text b.
Proof.
  induction a as [|y a IH]; simpl; [reflexivity|].
  destruct y; rewrite IH; try rewrite string_app_assoc; reflexivity.
Qed.

Lemma start_calls_app a b : start_calls (app a b) = app (start_calls a) (start_calls b).
Proof. unfold start_calls; apply flat_map_app. Qed.

Lemma saved_tool_call_lists_app a b :
  saved_tool_call_lists (app a b) =
  app (saved_tool_call_lists a) (saved_tool_call_lists b).
Proof. unfold saved_tool_call_lists; rewrite saved_messages_app; apply flat_map_app. Qed.

Lemma tool_starts_cons ev evs :
  tool_starts (ev :: evs) = app (tool_starts [ev]) (tool_starts evs).
Proof. unfold tool_starts; simpl; rewrite app_nil_r; reflexivity. Qed.

Lemma number_calls_app uuid8 n a b :
  number_calls uuid8 n (app a b) =
  app (number_calls uuid8 n a) (number_calls uuid8 (n + length a) b).
Proof.
  revert n; induction a as [|[name input] a IH]; intros n; simpl.
  - rewrite Nat.add_0_r; reflexivity.
  - rewrite IH, Nat.add_succ_r; reflexivity.
Qed.

Lemma step_observed uuid8 st ev :
  (tool_call_assistant_saved st = false -> current_tool_calls st = []) ->
  exists l,
    trace (step uuid8 st ev) = app (trace st) (EConsume ev :: l) /\
    (tool_call_assistant_saved (step uuid8 st ev) = false ->
     current_tool_calls (step uuid8 st ev) = []) /\
    map shape_of (yields l) = expected_shapes ev /\
    final_response (step uuid8 st ev) = final_response st ++ streamed_text (yields l) /\
    next_uuid (step uuid8 st ev) = (next_uuid st + length (tool_starts [ev]))%nat /\
    start_calls (yields l) = number_calls uuid8 (next_uuid st) (tool_starts [ev]) /\
    saved_tool_call_lists l = map (fun c => [tc_of_lc c]) (start_calls (yields l)).
Proof.
  intros Hinv.
  destruct ev as [c|name input|name output|kind]; unfold step, emit; simpl.
  - destruct (String.eqb c "") eqn:Ec; simpl.
    + exists []; simpl; rewrite string_app_nil_r, Nat.add_0_r.
      repeat split; auto.
    + repeat rewrite <- app_assoc; simpl; eexists; split; [reflexivity|].
      simpl; rewrite string_app_nil_r, Nat.add_0_r; repeat split; auto.
  - destruct (tool_call_assistant_saved st) eqn:S;
      [|rewrite (Hinv eq_refl)]; unfold save_message, emit; simpl;
      repeat rewrite <- app_assoc; simpl; eexists; (split; [reflexivity|]);
      simpl; rewrite string_app_nil_r, Nat.add_1_r; repeat split; discriminate.
  - destruct (find (fun tc => String.eqb (tc_name tc) name) (current_tool_calls st));
      unfold save_message, emit; simpl;
      repeat rewrite <- app_assoc; simpl; eexists; (split; [reflexivity|]);
      simpl; rewrite string_app_nil_r, Nat.add_0_r; repeat split; auto.
  - exists []; simpl; rewrite string_app_nil_r, Nat.add_0_r; repeat split; auto.
Qed.

Lemma run_events_observed uuid8 evs st :
  (tool_call_assistant_saved st = false -> current_tool_calls st = []) ->
  exists l,
    trace (run_events uuid8 st evs) = app (trace st) l /\
    (tool_call_assistant_saved (run_events uuid8 st evs) = false ->
     current_tool_calls (run_events uuid8 st evs) = []) /\
    map shape_of (yields l) = flat_map expected_shapes evs /\
    final_response (run_events uuid8 st evs) = final_response st ++ streamed_text (yields l) /\
    next_uuid (run_events uuid8 st evs) = (next_uuid st + length (tool_starts evs))%nat /\
    start_calls (yields l) = number_calls uuid8 (next_uuid st) (tool_starts evs) /\
    saved_tool_call_lists l = map (fun c => [tc_of_lc c]) (start_calls (yields l)).
Proof.
  unfold run_events; revert st; induction evs as [|ev evs IH]; intros st Hinv;
    cbn [fold_left].
  - exists []; simpl; rewrite app_nil_r, string_app_nil_r, Nat.add_0_r; repeat split; auto.
  - destruct (step_observed uuid8 st ev Hinv) as (l1 & T1 & I1 & Sh1 & F1 & N1 & C1 & L1).
    destruct (IH _ I1) as (l2 & T2 & I2 & Sh2 & F2 & N2 & C2 & L2).
    exists (EConsume ev :: app l1 l2).
    rewrite T2, T1, <- app_assoc; split; [reflexivity|].
    split; [exact I2|].
    change (yields (EConsume ev :: app l1 l2)) with (yields (app l1 l2)).
    change (saved_tool_call_lists (EConsume ev :: app l1 l2))
      with (saved_tool_call_lists (app l1 l2)).
    rewrite yields_app, map_app, Sh1, Sh2; split; [simpl; reflexivity|].
    split; [rewrite F2, F1, streamed_text_app, string_app_assoc; reflexivity|].
    rewrite tool_starts_cons, length_app, N2, N1, Nat.add_assoc.
    split; [reflexivity|].
    rewrite (start_calls_app (yields l1) (yields l2)).
    split.
    + rewrite C1, C2, N1, number_calls_app; reflexivity.
    + rewrite saved_tool_call_lists_app, L1, L2, map_app; reflexivity.
Qed.

Lemma loop_message_not_final m : loop_message m -> ~ final_message m.
Proof.
  intros [[R [C _]]|[R _]] [R' [c Raw]]; [|congruence].
  rewrite Raw in C; discriminate.
Qed.

(** The effects of an invocation whose history loads: the user message,
    the agent call, the loop's effects [l], and the final message when the
    stream completes with some text. *)
Lemma chat_observed uuid8 log agent u h :
  load_conversation_history log = Some h ->
  exists l,
    fst (chat uuid8 log agent u) =
      ELoad :: ESave (user_record u) :: EInvoke (chat_history h u) ::
      app l (match snd (agent (chat_history h u)) with
             | StreamDone =>
                 if String.eqb (streamed_text (yields l)) "" then []
                 else [ESave {| msg_role := RAssistant;
                                msg_content := Some (streamed_text (yields l));
                                msg_tool_call_id := None;
                                msg_raw := final_assistant_msg (streamed_text (yields l)) |}]
             | StreamRaise _ => []
             end) /\
    Forall loop_message (saved_messages l) /\
    map shape_of (yields l) = flat_map expected_shapes (fst (agent (chat_history h u))) /\
    start_calls (yields l) = number_calls uuid8 0 (tool_starts (fst (agent (chat_history h u)))) /\
    saved_tool_call_lists l = map (fun c => [tc_of_lc c]) (start_calls (yields l)).
Proof.
  intros L; unfold chat; rewrite L.
  destruct (agent (chat_history h u)) as [evs ending]; simpl.
  destruct (run_events_observed uuid8 evs (invoked_state h u) (fun _ => eq_refl))
    as (l & T & _ & Sh & F & _ & C & S).
  destruct (run_events_extends uuid8 evs (invoked_state h u) (Forall_nil _))
    as (l' & T' & S' & _).
  rewrite T in T'; apply app_inv_head in T'; subst l'.
  simpl in F, C.
  exists l; split; [|split; [exact S'|split; [exact Sh|split; [exact C|exact S]]]].
  rewrite invoked_state_trace in T.
  destruct ending as [|e]; simpl.
  - rewrite F.
    destruct (String.eqb (streamed_text (yields l)) ""); simpl;
      [rewrite T, app_nil_r; reflexivity|].
    unfold save_message, emit; simpl; rewrite T; reflexivity.
  - rewrite T, app_nil_r; reflexivity.
Qed.

Lemma chat_observed_yields uuid8 log agent u h :
  load_conversation_history log = Some h ->
  exists l,
    yields (fst (chat uuid8 log agent u)) = yields l /\
    saved_tool_call_lists (fst (chat uuid8 log agent u)) = saved_tool_call_lists l /\
    map shape_of (yields l) = flat_map expected_shapes (fst (agent (chat_history h u))) /\
    start_calls (yields l) = number_calls uuid8 0 (tool_starts (fst (agent (chat_history h u)))) /\
    saved_tool_call_lists l = map (fun c => [tc_of_lc c]) (start_calls (yields l)).
Proof.
  intros L.
  destruct (chat_observed uuid8 log agent u h L) as (l & E & _ & Sh & C & S).
  exists l; rewrite E; split; [|split; [|split; [exact Sh|split; [exact C|exact S]]]].
  - destruct (snd (agent (chat_history h u)));
      [destruct (String.eqb (streamed_text (yields l)) "")|];
      simpl; rewrite yields_app; simpl; rewrite app_nil_r; reflexivity.
  - change (saved_tool_call_lists (ELoad :: ESave (user_record u) ::
                                   EInvoke (chat_history h u) :: ?r))
      with (saved_tool_call_lists r).
    destruct (snd (agent (chat_history h u)));
      [destruct (String.eqb (streamed_text (yields l)) "")|];
      rewrite ?app_nil_r; try reflexivity.
    rewrite saved_tool_call_lists_app, app_nil_r; reflexivity.
Qed.

Lemma convert_tool_calls_lc tcs l :
  convert_tool_calls tcs = Some l -> l = map lc_of_tc tcs.
Proof.
  revert l; induction tcs as [|tc tcs IH]; intros l H; simpl in H.
  - injection H as <-; reflexivity.
  - destruct (tc_arguments tc) as [args|] eqn:A; [|discriminate].
    destruct (convert_tool_calls tcs) as [l'|] eqn:E; [|discriminate].
    injection H as <-; simpl; unfold lc_of_tc at 1; rewrite A, (IH l' eq_refl).
    reflexivity.
Qed.

Lemma reload_tool_calls ms :
  Forall (fun m => loop_message m \/ final_message m) ms ->
  exists t, load_conversation_history ms = Some t /\
            dialogue_tool_calls t =
              flat_map (map lc_of_tc) (flat_map message_tool_call_lists ms).
Proof.
  induction 1 as [|m ms Hm _ [t [Ht Hc]]]; simpl; [eexists; split; reflexivity|].
  assert (Hmc : exists ts, convert_message m = Some ts /\
                dialogue_tool_calls ts = flat_map (map lc_of_tc) (message_tool_call_lists m)).
  { destruct Hm as [[[R [C (tcs & l & T & Lc)]] | [R (c & i & n & Raw)]] | [R [c Raw]]];
      unfold convert_message, message_tool_call_lists.
    - rewrite R, T, Lc; eexists; split; [reflexivity|].
      unfold nonempty_tool_calls in T.
      destruct (raw_tool_calls (msg_raw m)) as [| |tcs']; try discriminate.
      destruct tcs' as [|tc0 tcs']; [discriminate|]; injection T as <-.
      simpl; rewrite !app_nil_r; exact (convert_tool_calls_lc _ _ Lc).
    - rewrite R, Raw; simpl; eexists; split; reflexivity.
    - rewrite R, Raw; simpl; eexists; split; reflexivity. }
  destruct Hmc as (ts & Hts & Hcs).
  rewrite Hts, Ht; eexists; split; [reflexivity|].
  unfold dialogue_tool_calls in *; rewrite flat_map_app, Hcs, Hc, flat_map_app.
  reflexivity.
Qed.

(* Final message, in [chat] (every save returns): when the history loads
    and the agent's stream completes, [chat] does not raise, and its last
    effect is the saving of one content-only assistant message whose content is the concatenation of
    every text chunk streamed to the caller during the invocation, text sent
    before or between tool calls included; it is saved only when that text
    is non-empty, and no message saved before it has that form. *)
Lemma chat_final_message uuid8 log agent u h
    (L : load_conversation_history log = Some h)
    (D : snd (agent (chat_history h u)) = StreamDone) :
  snd (chat uuid8 log agent u) = None /\
  exists pre,
    fst (chat uuid8 log agent u) =
      app pre
        (if String.eqb (streamed_text (yields (fst (chat uuid8 log agent u)))) "" then []
         else [ESave {| msg_role := RAssistant;
                        msg_content := Some (streamed_text (yields (fst (chat uuid8 log agent u))));
                        msg_tool_call_id := None;
                        msg_raw := final_assistant_msg
                                     (streamed_text (yields (fst (chat uuid8 log agent u)))) |}]) /\
    Forall (fun m => ~ final_message m) (saved_messages pre).
Proof.
  pose proof (chat_shape uuid8 log agent u) as Hs; rewrite L in Hs.
  destruct Hs as (l0 & _ & _ & _ & _ & Done).
  split; [apply Done, D|].
  destruct (chat_observed uuid8 log agent u h L) as (l & E & S & _).
  rewrite D in E.
  assert (Y : yields (fst (chat uuid8 log agent u)) = yields l).
  { rewrite E; destruct (String.eqb (streamed_text (yields l)) "");
      simpl; rewrite yields_app; simpl; rewrite app_nil_r; reflexivity. }
  rewrite Y, E.
  exists (ELoad :: ESave (user_record u) :: EInvoke (chat_history h u) :: l).
  split; [reflexivity|].
  simpl; constructor; [intros [R _]; discriminate|].
  eapply Forall_impl; [|exact S]; apply loop_message_not_final.
Qed.

(* Tool requests, in [chat] (every save returns): when the history loads,
    the n-th tool request of the
    agent's stream (counting from 0) is announced to the caller with the
    identifier "call_" followed by the n-th value of the uuid supply, its
    capability name and its input; and each announced call is persisted as
    its own assistant message whose [tool_calls] list holds exactly that
    one call (its arguments being the input), in the same order, with no
    other tool-calling assistant message saved. *)
Lemma chat_tool_requests uuid8 log agent u h
    (L : load_conversation_history log = Some h) :
  start_calls (yields (fst (chat uuid8 log agent u))) =
    number_calls uuid8 0 (tool_starts (fst (agent (chat_history h u)))) /\
  saved_tool_call_lists (fst (chat uuid8 log agent u)) =
    map (fun c => [tc_of_lc c]) (start_calls (yields (fst (chat uuid8 log agent u)))).
Proof.
  destruct (chat_observed_yields uuid8 log agent u h L) as (l & Y & S & _ & C & Sl).
  rewrite Y, S; split; [exact C|exact Sl].
Qed.

(* Persistence round trip, in [chat] (every save returns): when the
    history loads, reloading the conversation after the invocation
    (completed or failed) yields the old
    history, the user turn, and turns whose tool calls are exactly the calls
    announced to the caller by [tool_call_start] events, in order, each with
    the same identifier, capability name and arguments. *)
Lemma chat_announced_reload uuid8 log agent u h
    (L : load_conversation_history log = Some h) :
  exists t,
    load_conversation_history (app log (saved_messages (fst (chat uuid8 log agent u)))) =
      Some (app h (HumanMessage u :: t)) /\
    dialogue_tool_calls t = start_calls (yields (fst (chat uuid8 log agent u))).
Proof.
  pose proof (chat_shape uuid8 log agent u) as Hs; rewrite L in Hs.
  destruct Hs as (l' & E & _ & S & _).
  destruct (chat_observed_yields uuid8 log agent u h L) as (l & Y & Sv & _ & _ & Sl).
  destruct (reload_tool_calls _ S) as (t & Lt & Ct).
  exists t; split.
  - rewrite load_app, L, E; simpl; rewrite Lt; reflexivity.
  - rewrite Ct.
    assert (Q : flat_map message_tool_call_lists (saved_messages l') =
                saved_tool_call_lists (fst (chat uuid8 log agent u)))
      by (rewrite E; reflexivity).
    rewrite Q, Sv, Sl, <- Y.
    generalize (start_calls (yields (fst (chat uuid8 log agent u)))) as calls.
    induction calls as [|c cs IH]; simpl; [reflexivity|].
    rewrite IH; destruct c; reflexivity.
Qed.

(** ** Further properties: the tool catalog *)

Lemma SearchQARequest_ok query limit :
  (1 <= py_len query <= 200)%nat -> (1 <= limit <= 100)%Z ->
  SearchQARequest query limit = Ok {| req_query := query; req_limit := limit |}.
Proof.
  intros Hq Hl; unfold SearchQARequest.
  replace (Nat.leb 1 (py_len query)) with true by (symmetry; apply Nat.leb_le; lia).
  replace (Nat.leb (py_len query) 200) with true by (symmetry; apply Nat.leb_le; lia).
  replace (Z.leb 1 limit) with true by (symmetry; apply Z.leb_le; lia).
  replace (Z.leb limit 100) with true by (symmetry; apply Z.leb_le; lia).
  reflexivity.
Qed.

Lemma SearchQARequest_err query limit :
  (py_len query = 0 \/ 200 < py_len query)%nat \/ (limit < 1 \/ 100 < limit)%Z ->
  SearchQARequest query limit = Err (validation_error "SearchQARequest").
Proof.
  intros H; unfold SearchQARequest.
  destruct (Nat.leb 1 (py_len query)) eqn:A,
           (Nat.leb (py_len query) 200) eqn:B,
           (Z.leb 1 limit) eqn:C, (Z.leb limit 100) eqn:D; simpl; try reflexivity.
  apply Nat.leb_le in A; apply Nat.leb_le in B; apply Z.leb_le in C; apply Z.leb_le in D.
  lia.
Qed.

Lemma search_qa_kind env query limit e :
  search_qa env query limit = Err e -> exn_kind_of e <> NotImplementedErr.
Proof.
  unfold search_qa.
  destruct (SearchQARequest query limit) as [req|e'] eqn:R.
  - destruct (post_search_qa env req) as [r|[k m]]; simpl; [discriminate|].
    intros E; injection E as <-; destruct k; discriminate.
  - revert R; unfold SearchQARequest; destruct (_ && _); intros R; [discriminate|].
    injection R as <-; intros E; injection E as <-; discriminate.
Qed.

(** [search_knowledge_base] rejects a request the model refuses: for an
    empty query, a query over 200 characters or a limit below 1 it returns
    "Error searching knowledge base: " followed by the validation message,
    the same text for every backend (none is contacted). *)
Theorem search_knowledge_base_invalid_request env query limit
    (H : (py_len query = 0 \/ 200 < py_len query)%nat \/ (limit < 1)%Z) :
  exists msg,
    search_knowledge_base env query limit = Ok ("Error searching knowledge base: " ++ msg) /\
    forall env', search_knowledge_base env' query limit = search_knowledge_base env query limit.
Proof.
  assert (E : SearchQARequest query (Z.min limit 10) = Err (validation_error "SearchQARequest"))
    by (apply SearchQARequest_err; lia).
  unfold search_knowledge_base, search_qa; rewrite E.
  eexists; split; [reflexivity|intros env'; reflexivity].
Qed.

Lemma search_knowledge_base_invalid_request_witness :
  ((py_len "" = 0 \/ 200 < py_len "")%nat \/ (5 < 1)%Z) /\
  exists msg,
    search_knowledge_base (demo_env false) "" 5 = Ok ("Error searching knowledge base: " ++ msg) /\
    forall env', search_knowledge_base env' "" 5 = search_knowledge_base (demo_env false) "" 5.
Proof.
  split; [left; left; reflexivity|].
  apply search_knowledge_base_invalid_request; left; left; reflexivity.
Defined.

(** For a query of 1 to 200 characters and a limit of at least 1,
    [search_knowledge_base] issues one backend search, with the limit
    capped at 10: the request carries [min(limit, 10)], which lies in 1..10,
    and two backends that answer that request alike give the same result. *)
Theorem search_knowledge_base_single_request env env' query limit
    (Hq : (1 <= py_len query <= 200)%nat) (Hl : (1 <= limit)%Z)
    (Agree : post_search_qa env' {| req_query := query; req_limit := Z.min limit 10 |} =
             post_search_qa env {| req_query := query; req_limit := Z.min limit 10 |}) :
  (1 <= Z.min limit 10 <= 10)%Z /\
  search_knowledge_base env' query limit = search_knowledge_base env query limit.
Proof.
  split; [lia|].
  unfold search_knowledge_base, search_qa.
  rewrite (SearchQARequest_ok query (Z.min limit 10) Hq ltac:(lia)), Agree.
  reflexivity.
Qed.

Lemma search_knowledge_base_single_request_witness :
  (1 <= py_len "Docker" <= 200)%nat /\ (1 <= 50)%Z /\
  (1 <= Z.min 50 10 <= 10)%Z /\
  search_knowledge_base (demo_env true) "Docker" 50 =
    search_knowledge_base (demo_env false) "Docker" 50.
Proof.
  split; [simpl; lia|split; [lia|]].
  apply search_knowledge_base_single_request; [simpl; lia|lia|reflexivity].
Defined.

(** [search_knowledge_base] caps the limit: any limit of 10 or more gives
    the result of limit 10. *)
Theorem search_knowledge_base_limit_capped env query limit (H : (10 <= limit)%Z) :
  search_knowledge_base env query limit = search_knowledge_base env query 10.
Proof. unfold search_knowledge_base; rewrite (Z.min_r limit 10 H); reflexivity. Qed.

Lemma search_knowledge_base_limit_capped_witness :
  (10 <= 100)%Z /\
  search_knowledge_base (demo_env false) "Docker" 100 =
    search_knowledge_base (demo_env false) "Docker" 10.
Proof. split; [lia|apply search_knowledge_base_limit_capped; lia]. Defined.

(** With [settings.use_pinecone] off, [semantic_search_knowledge_base] does
    not cap [top_k]: for a query of 1 to 200 characters and 1 <= top_k <= 100
    it issues one backend search carrying [top_k] itself, and two backends
    that answer that request alike give the same result. *)
Theorem semantic_search_single_request env env' query top_k
    (P : use_pinecone env = false) (P' : use_pinecone env' = false)
    (Hq : (1 <= py_len query <= 200)%nat) (Hk : (1 <= top_k <= 100)%Z)
    (Agree : post_search_qa env' {| req_query := query; req_limit := top_k |} =
             post_search_qa env {| req_query := query; req_limit := top_k |}) :
  semantic_search_knowledge_base env' query top_k = semantic_search_knowledge_base env query top_k.
Proof.
  unfold semantic_search_knowledge_base, semantic_search_qa, search_qa.
  rewrite P, P'; simpl.
  rewrite (SearchQARequest_ok query top_k Hq Hk), Agree; reflexivity.
Qed.

Lemma semantic_search_single_request_witness :
  use_pinecone (demo_env false) = false /\
  (1 <= py_len "Docker" <= 200)%nat /\ (1 <= 50 <= 100)%Z /\
  semantic_search_knowledge_base (demo_env false) "Docker" 50 =
    semantic_search_knowledge_base (demo_env false) "Docker" 50.
Proof.
  split; [reflexivity|split; [simpl; lia|split; [lia|]]].
  apply semantic_search_single_request; [reflexivity|reflexivity|simpl; lia|lia|reflexivity].
Defined.

(** With [settings.use_pinecone] off, [semantic_search_knowledge_base]
    returns "Error in semantic search: " followed by the validation message
    for an empty query, a query over 200 characters, or a [top_k] outside
    1..100, the same text for every such backend. *)
Theorem semantic_search_invalid_request env query top_k
    (P : use_pinecone env = false)
    (H : (py_len query = 0 \/ 200 < py_len query)%nat \/
         (top_k < 1 \/ 100 < top_k)%Z) :
  exists msg,
    semantic_search_knowledge_base env query top_k = Ok ("Error in semantic search: " ++ msg) /\
    forall env', use_pinecone env' = false ->
      semantic_search_knowledge_base env' query top_k =
      semantic_search_knowledge_base env query top_k.
Proof.
  unfold semantic_search_knowledge_base, semantic_search_qa, search_qa.
  rewrite P, (SearchQARequest_err query top_k H); simpl.
  eexists; split; [reflexivity|].
  intros env' P'; rewrite P'; reflexivity.
Qed.

Lemma semantic_search_invalid_request_witness :
  use_pinecone (demo_env false) = false /\
  ((py_len "Docker" = 0 \/ 200 < py_len "Docker")%nat \/ (101 < 1 \/ 100 < 101)%Z) /\
  exists msg,
    semantic_search_knowledge_base (demo_env false) "Docker" 101 =
      Ok ("Error in semantic search: " ++ msg) /\
    forall env', use_pinecone env' = false ->
      semantic_search_knowledge_base env' "Docker" 101 =
      semantic_search_knowledge_base (demo_env false) "Docker" 101.
Proof.
  split; [reflexivity|split; [right; right; lia|]].
  apply semantic_search_invalid_request; [reflexivity|right; right; lia].
Defined.

Lemma parse_uuids_inr env ids us :
  parse_uuids env ids = Some us -> parse_uuid_list env ids = inr us.
Proof.
  unfold parse_uuids; destruct (parse_uuid_list env ids); [discriminate|].
  intros E; injection E as ->; reflexivity.
Qed.

Lemma parse_uuids_some env ids :
  (forall s, In s ids -> parse_uuid env s <> None) ->
  exists us, parse_uuids env ids = Some us /\ length us = length ids.
Proof.
  unfold parse_uuids.
  induction ids as [|s ids IH]; intros H; simpl; [eexists; split; reflexivity|].
  destruct (parse_uuid env s) as [u|] eqn:E; [|exfalso; apply (H s); [left|]; auto].
  destruct IH as (us & E' & Lu); [intros s' Hs'; apply H; right; exact Hs'|].
  destruct (parse_uuid_list env ids); [discriminate|].
  injection E' as ->; eexists; split; [reflexivity|simpl; rewrite Lu; reflexivity].
Qed.

Lemma parse_uuid_list_first env pre s post :
  (forall x, In x pre -> parse_uuid env x <> None) -> parse_uuid env s = None ->
  parse_uuid_list env (app pre (s :: post)) = inl (uuid_error env s).
Proof.
  induction pre as [|x pre IH]; intros Hp Hs; simpl; [rewrite Hs; reflexivity|].
  destruct (parse_uuid env x) as [u|] eqn:E; [|exfalso; apply (Hp x); [left|]; auto].
  rewrite IH; [reflexivity| |exact Hs].
  intros y Hy; apply Hp; right; exact Hy.
Qed.

Lemma parse_uuids_length env ids us :
  parse_uuids env ids = Some us -> length us = length ids.
Proof.
  intros P; apply parse_uuids_inr in P; revert us P.
  induction ids as [|s ids IH]; intros us H; simpl in H.
  - injection H as <-; reflexivity.
  - destruct (parse_uuid env s); [|discriminate].
    destruct (parse_uuid_list env ids) as [|us'] eqn:E; [discriminate|].
    injection H as <-; simpl; rewrite (IH us' eq_refl); reflexivity.
Qed.

(** [get_qa_by_ids] with an empty list, or with more than 50 identifiers
    that all parse, fails the request model ([min_length=1, max_length=50])
    before any backend call; the ValidationError, being a ValueError, is
    reported as "Invalid UUID format: " followed by its message. *)
Theorem get_qa_by_ids_rejects_empty_or_oversized env qa_ids
    (P : forall s, In s qa_ids -> parse_uuid env s <> None)
    (N : qa_ids = [] \/ (50 < length qa_ids)%nat) :
  get_qa_by_ids env qa_ids =
    Ok ("Invalid UUID format: " ++ exn_msg (validation_error "GetQAByIDsRequest")).
Proof.
  destruct (parse_uuids_some env qa_ids P) as (us & E & Lu).
  unfold get_qa_by_ids, client_get_qa_by_ids; rewrite (parse_uuids_inr _ _ _ E), Lu.
  replace (Nat.leb 1 (length qa_ids) && Nat.leb (length qa_ids) 50) with false.
  - reflexivity.
  - destruct N as [->|N]; [reflexivity|].
    symmetry; apply andb_false_iff; right; apply Nat.leb_gt; exact N.
Qed.

Lemma get_qa_by_ids_rejects_empty_or_oversized_witness :
  (forall s, In s [] -> parse_uuid (demo_env false) s <> None) /\
  get_qa_by_ids (demo_env false) [] =
    Ok ("Invalid UUID format: " ++ exn_msg (validation_error "GetQAByIDsRequest")).
Proof.
  assert (P : forall s, In s [] -> parse_uuid (demo_env false) s <> None)
    by (intros s []).
  split; [exact P|].
  apply get_qa_by_ids_rejects_empty_or_oversized; [exact P|left; reflexivity].
Defined.

(** [get_qa_by_ids] parses the identifiers in order before calling the
    backend: when [s] is the first identifier that is not a UUID, it
    returns "Invalid UUID format: " followed by the message of the
    ValueError [UUID(s)] raises, whatever the later identifiers and the
    backend. *)
Theorem get_qa_by_ids_first_invalid_uuid env pre s post
    (Pre : forall x, In x pre -> parse_uuid env x <> None)
    (P : parse_uuid env s = None) :
  get_qa_by_ids env (app pre (s :: post)) =
    Ok ("Invalid UUID format: " ++ uuid_error env s).
Proof. unfold get_qa_by_ids; rewrite (parse_uuid_list_first env pre s post Pre P); reflexivity. Qed.

Lemma get_qa_by_ids_first_invalid_uuid_witness :
  (forall x, In x [qa_id docker_qa] -> parse_uuid (demo_env false) x <> None) /\
  parse_uuid (demo_env false) "42" = None /\
  get_qa_by_ids (demo_env false) (app [qa_id docker_qa] ["42"; "7"]) =
    Ok ("Invalid UUID format: " ++ "badly formed hexadecimal UUID string").
Proof.
  assert (Pre : forall x, In x [qa_id docker_qa] -> parse_uuid (demo_env false) x <> None)
    by (intros x [<-|[]]; discriminate).
  split; [exact Pre|split; [reflexivity|]].
  exact (get_qa_by_ids_first_invalid_uuid (demo_env false) [qa_id docker_qa] "42" ["7"]
           Pre eq_refl).
Defined.

(** [get_qa_by_ids] reports the backend's failures by their exception type:
    for 1 to 50 valid identifiers, a response body that is not JSON or does
    not fit the response model (a ValueError) is reported as
    "Invalid UUID format: " followed by the error message, although the
    identifiers are valid, while HTTP status and transport errors are
    reported as "Error retrieving Q&A pairs: " followed by the message. *)
Theorem get_qa_by_ids_backend_error_text env qa_ids uuids k msg
    (P : parse_uuids env qa_ids = Some uuids)
    (N : (1 <= length qa_ids <= 50)%nat)
    (B : post_get_qa_by_ids env uuids = inr (k, msg)) :
  get_qa_by_ids env qa_ids =
    Ok (match k with
        | BValidationError | BJSONDecodeError => "Invalid UUID format: "
        | BHTTPStatusError | BTransportError => "Error retrieving Q&A pairs: "
        end ++ msg).
Proof.
  unfold get_qa_by_ids, client_get_qa_by_ids.
  rewrite (parse_uuids_inr _ _ _ P), (parse_uuids_length _ _ _ P).
  replace (Nat.leb 1 (length qa_ids) && Nat.leb (length qa_ids) 50) with true
    by (symmetry; apply andb_true_iff; split; apply Nat.leb_le; lia).
  rewrite B; destruct k; reflexivity.
Qed.

Lemma get_qa_by_ids_backend_error_text_witness :
  parse_uuids broken_body_env [qa_id docker_qa] = Some [qa_id docker_qa] /\
  (1 <= length [qa_id docker_qa] <= 50)%nat /\
  post_get_qa_by_ids broken_body_env [qa_id docker_qa] =
    inr (BJSONDecodeError, "Expecting value: line 1 column 1 (char 0)") /\
  get_qa_by_ids broken_body_env [qa_id docker_qa] =
    Ok ("Invalid UUID format: " ++ "Expecting value: line 1 column 1 (char 0)").
Proof.
  split; [reflexivity|split; [simpl; lia|split; [reflexivity|]]].
  apply (get_qa_by_ids_backend_error_text broken_body_env _ [qa_id docker_qa]
           BJSONDecodeError); [reflexivity|simpl; lia|reflexivity].
Defined.

Lemma lower_app a b : lower (a ++ b) = lower a ++ lower b.
Proof. induction a as [|c a IH]; simpl; [reflexivity|rewrite IH; reflexivity]. Qed.

Lemma prefix_app p a b : String.prefix p a = true -> String.prefix p (a ++ b) = true.
Proof.
  revert a; induction p as [|c p IH]; intros [|d a] H.
  - destruct b; reflexivity.
  - destruct b; reflexivity.
  - discriminate.
  - simpl in *; destruct (ascii_dec c d); [apply IH, H|discriminate].
Qed.

Lemma contains_app_l a b p : contains a p = true -> contains (a ++ b) p = true.
Proof.
  induction a as [|c a IH]; intros H.
  - rewrite contains_nil in H; change (contains b p = true).
    destruct b as [|c b]; [rewrite contains_nil; exact H|].
    rewrite contains_cons; apply orb_true_iff; left; exact (prefix_app p "" (String c b) H).
  - rewrite contains_cons in H; change (contains (String c (a ++ b)) p = true).
    rewrite contains_cons.
    apply orb_true_iff in H; apply orb_true_iff; destruct H as [H|H].
    + left; exact (prefix_app p (String c a) b H).
    + right; apply IH, H.
Qed.

(** A tool text that starts with [p], where [p] contains "error" in some
    letter case, gets the status "error". *)
Lemma is_success_error_prefix p m :
  contains (lower p) "error" = true -> is_success (p ++ m) = false.
Proof.
  intros H; unfold is_success; apply negb_false_iff, existsb_exists.
  exists "error"; split; [right; right; left; reflexivity|].
  rewrite lower_app; apply contains_app_l, H.
Qed.

(** How the [tool_call_end] status ([is_success], agent.py 291-293) labels
    the tools' own outcomes: "nothing found" from [search_knowledge_base] is
    labelled "error", while "nothing found" from
    [semantic_search_knowledge_base] (Pinecone off) and from [get_qa_by_ids]
    is labelled "success"; every
    exception text of [search_knowledge_base], of
    [semantic_search_knowledge_base] (Pinecone off) and every
    non-ValueError failure of [get_qa_by_ids] is labelled "error". *)
Theorem tool_outcomes_status :
  (forall env query limit r,
     search_qa env query (Z.min limit 10) = Ok r -> count r = 0%Z ->
     exists s, search_knowledge_base env query limit = Ok s /\ is_success s = false) /\
  (forall env query top_k r,
     use_pinecone env = false -> search_qa env query top_k = Ok r -> count r = 0%Z ->
     exists s, semantic_search_knowledge_base env query top_k = Ok s /\ is_success s = true) /\
  (forall env qa_ids uuids,
     parse_uuids env qa_ids = Some uuids -> client_get_qa_by_ids env uuids = Ok [] ->
     exists s, get_qa_by_ids env qa_ids = Ok s /\ is_success s = true) /\
  (forall env query limit e,
     search_qa env query (Z.min limit 10) = Err e ->
     exists s, search_knowledge_base env query limit = Ok s /\ is_success s = false) /\
  (forall env query top_k e,
     use_pinecone env = false -> search_qa env query top_k = Err e ->
     exists s, semantic_search_knowledge_base env query top_k = Ok s /\ is_success s = false) /\
  (forall env qa_ids uuids e,
     parse_uuids env qa_ids = Some uuids -> client_get_qa_by_ids env uuids = Err e ->
     is_value_error (exn_kind_of e) = false ->
     exists s, get_qa_by_ids env qa_ids = Ok s /\ is_success s = false).
Proof.
  split; [|split; [|split; [|split; [|split]]]].
  - intros env query limit r H C; unfold search_knowledge_base; rewrite H, C.
    eexists; split; [reflexivity|vm_compute; reflexivity].
  - intros env query top_k r P H C.
    unfold semantic_search_knowledge_base, semantic_search_qa; rewrite P; simpl; rewrite H, C.
    eexists; split; [reflexivity|vm_compute; reflexivity].
  - intros env qa_ids uuids P C; unfold get_qa_by_ids; rewrite (parse_uuids_inr _ _ _ P), C.
    eexists; split; [reflexivity|vm_compute; reflexivity].
  - intros env query limit e H; unfold search_knowledge_base; rewrite H.
    eexists; split; [reflexivity|].
    apply (is_success_error_prefix "Error searching knowledge base: "); reflexivity.
  - intros env query top_k e P H.
    unfold semantic_search_knowledge_base, semantic_search_qa; rewrite P; simpl; rewrite H.
    pose proof (search_qa_kind env query top_k e H) as K.
    destruct (exn_kind_of e); try congruence;
      (eexists; split; [reflexivity|];
       apply (is_success_error_prefix "Error in semantic search: "); reflexivity).
  - intros env qa_ids uuids e P C V; unfold get_qa_by_ids.
    rewrite (parse_uuids_inr _ _ _ P), C, V.
    eexists; split; [reflexivity|].
    apply (is_success_error_prefix "Error retrieving Q&A pairs: "); reflexivity.
Qed.

(** ** One invocation of [chat_io] *)

Lemma save_io_cases sb st r c i raw :
  save_io sb st r c i raw = (save_message st r c i raw, None) \/
  (exists e, save_io sb st r c i raw = (save_message st r c i raw, Some e)) \/
  (exists e, save_io sb st r c i raw = (st, Some e)).
Proof.
  unfold save_io, save_message.
  destruct (sb _ _) as [|[|] e]; [left; reflexivity|right; left; eauto|right; right; eauto].
Qed.

Ltac case_save :=
  match goal with
  | |- context [save_io ?sb ?st ?r ?c ?i ?raw] =>
      let E := fresh "E" in
      destruct (save_io_cases sb st r c i raw) as [E|[[? E]|[? E]]]; rewrite E
  end.

Lemma step_io_returns uuid8 sb st ev st' :
  step_io uuid8 sb st ev = (st', None) -> st' = step uuid8 st ev.
Proof.
  destruct ev as [c|name input|name output|kind]; unfold step_io, step; simpl;
    try (intros E; injection E as <-; reflexivity).
  - destruct (tool_call_assistant_saved st);
      [|destruct (current_tool_calls st) as [|tc0 tcs0]]; simpl;
      case_save; intros E'; try discriminate; injection E' as <-; reflexivity.
  - destruct (find (fun tc => String.eqb (tc_name tc) name) (current_tool_calls st)) as [tc|];
      [case_save|]; intros E'; try discriminate; injection E' as <-; reflexivity.
Qed.

Lemma step_io_extends uuid8 sb st ev st' err :
  args_ok (current_tool_calls st) -> step_io uuid8 sb st ev = (st', err) ->
  exists l, trace st' = app (trace st) l /\
            Forall loop_message (saved_messages l) /\
            no_error_event (yields l) /\
            args_ok (current_tool_calls st').
Proof.
  intros Hok H; destruct err as [e|].
  2:{ apply step_io_returns in H; subst st'.
      destruct (step_extends uuid8 st ev Hok) as (l & E & S & Y & O).
      exists (EConsume ev :: l); split; [exact E|split; [exact S|split; [exact Y|exact O]]]. }
  revert H; destruct ev as [c|name input|name output|kind]; unfold step_io, step; simpl;
    try (intros E; discriminate).
  - assert (Hnew : tc_arguments {| tc_id := "call_" ++ uuid8 (next_uuid st);
                                   tc_name := name;
                                   tc_arguments := Some input |} <> None)
      by discriminate.
    destruct (tool_call_assistant_saved st);
      [|destruct (current_tool_calls st) as [|tc0 tcs0] eqn:Ecur]; simpl;
      case_save; intros E'; try discriminate; injection E' as <- _;
      unfold save_message, emit; simpl; trace_shape.
    + assert (Hc := args_ok_snoc [] _ (Forall_nil _) Hnew).
      split; [|split; [reflexivity|exact Hc]].
      constructor; [|constructor].
      apply loop_message_assistant; [discriminate|exact Hc].
    + split; [constructor|split; [reflexivity|exact (args_ok_snoc [] _ (Forall_nil _) Hnew)]].
    + assert (Hc := args_ok_snoc [] _ (Forall_nil _) Hnew).
      split; [|split; [reflexivity|exact Hc]].
      constructor; [|constructor].
      apply loop_message_assistant; [discriminate|exact Hc].
    + split; [constructor|split; [reflexivity|exact (args_ok_snoc [] _ (Forall_nil _) Hnew)]].
    + assert (Hc := args_ok_snoc (tc0 :: tcs0) _ Hok Hnew).
      split; [|split; [reflexivity|exact Hc]].
      constructor; [|constructor].
      apply loop_message_assistant; [discriminate|exact Hc].
    + split; [constructor|split; [reflexivity|exact (args_ok_snoc (tc0 :: tcs0) _ Hok Hnew)]].
  - destruct (find (fun tc => String.eqb (tc_name tc) name) (current_tool_calls st)) as [tc|];
      [case_save|]; intros E'; try discriminate; injection E' as <- _;
      unfold save_message, emit; simpl; trace_shape.
    + split; [|split; [reflexivity|exact Hok]].
      constructor; [|constructor].
      right; simpl; split; [reflexivity|eauto].
    + split; [constructor|split; [reflexivity|exact Hok]].
Qed.

Lemma run_events_io_returns uuid8 sb evs st st' :
  run_events_io uuid8 sb st evs = (st', None) -> st' = run_events uuid8 st evs.
Proof.
  unfold run_events; revert st; induction evs as [|ev evs IH]; intros st H; simpl in *.
  - injection H as <-; reflexivity.
  - destruct (step_io uuid8 sb st ev) as [st1 [e|]] eqn:E; [discriminate|].
    rewrite (IH _ H), (step_io_returns _ _ _ _ _ E); reflexivity.
Qed.

Lemma run_events_io_extends uuid8 sb evs st st' err :
  args_ok (current_tool_calls st) -> run_events_io uuid8 sb st evs = (st', err) ->
  exists l, trace st' = app (trace st) l /\
            Forall loop_message (saved_messages l) /\
            no_error_event (yields l) /\
            args_ok (current_tool_calls st').
Proof.
  revert st; induction evs as [|ev evs IH]; intros st Hok H; simpl in H.
  - injection H as <- _; exists []; rewrite app_nil_r; repeat split; [constructor|exact Hok].
  - destruct (step_io uuid8 sb st ev) as [st1 e1] eqn:E.
    destruct (step_io_extends uuid8 sb st ev st1 e1 Hok E) as (l1 & E1 & S1 & Y1 & O1).
    assert (Rest : exists l2, trace st' = app (trace st1) l2 /\
                              Forall loop_message (saved_messages l2) /\
                              no_error_event (yields l2) /\
                              args_ok (current_tool_calls st')).
    { destruct e1 as [e|].
      - injection H as <- _; exists []; rewrite app_nil_r; repeat split; [constructor|exact O1].
      - exact (IH st1 O1 H). }
    destruct Rest as (l2 & E2 & S2 & Y2 & O2).
    exists (app l1 l2); rewrite E2, E1, app_assoc; split; [reflexivity|].
    rewrite saved_messages_app, yields_app; split; [|split; [|exact O2]].
    + apply Forall_app; split; [exact S1|exact S2].
    + apply no_error_event_app; [exact Y1|exact Y2].
Qed.

Lemma step_io_accepting uuid8 st ev :
  step_io uuid8 accepting_backend st ev = (step uuid8 st ev, None).
Proof.
  destruct ev as [c|name input|name output|kind]; unfold step_io, step; simpl; try reflexivity.
  - destruct (tool_call_assistant_saved st);
      [|destruct (current_tool_calls st) as [|tc0 tcs0]]; reflexivity.
  - destruct (find (fun tc => String.eqb (tc_name tc) name) (current_tool_calls st));
      reflexivity.
Qed.

Lemma run_events_io_accepting uuid8 evs st :
  run_events_io uuid8 accepting_backend st evs = (run_events uuid8 st evs, None).
Proof.
  unfold run_events; revert st; induction evs as [|ev evs IH]; intros st; simpl;
    [reflexivity|rewrite step_io_accepting; apply IH].
Qed.

(** [chat] is [chat_io] against a backend that returns the log and accepts
    every save, with [load_error] as the conversion's message. *)
Lemma chat_io_accepting uuid8 log agent u :
  chat_io uuid8 accepting_backend (fun _ => load_error) (inl log) agent u =
    chat uuid8 log agent u.
Proof.
  unfold chat_io, chat; destruct (load_conversation_history log) as [h|]; [|reflexivity].
  simpl; destruct (agent (chat_history h u)) as [evs ending].
  rewrite run_events_io_accepting; destruct ending; [|reflexivity].
  destruct (String.eqb _ ""); reflexivity.
Qed.

(** An invocation of [chat_io] that does not raise is one of [chat]: every
    save it made returned. *)
Lemma chat_io_returns uuid8 sb ce log agent u tr :
  chat_io uuid8 sb ce (inl log) agent u = (tr, None) -> chat uuid8 log agent u = (tr, None).
Proof.
  unfold chat_io, chat; destruct (load_conversation_history log) as [h|]; [|discriminate].
  case_save; [|discriminate|discriminate].
  destruct (agent (chat_history h u)) as [evs ending].
  destruct (run_events_io uuid8 sb _ evs) as [st [e|]] eqn:R; [discriminate|].
  apply run_events_io_returns in R; subst st.
  destruct ending; [|discriminate].
  destruct (String.eqb _ ""); [exact (fun H => H)|].
  case_save; [exact (fun H => H)|discriminate|discriminate].
Qed.

Lemma chat_io_user_saved uuid8 sb ce log agent u h :
  load_conversation_history log = Some h ->
  sb [ELoad] (user_record u) = SaveReturns ->
  exists rest,
    fst (chat_io uuid8 sb ce (inl log) agent u) =
      ELoad :: ESave (user_record u) :: EInvoke (chat_history h u) :: rest /\
    Forall (fun m => loop_message m \/ final_message m) (saved_messages rest) /\
    no_error_event (yields rest).
Proof.
  intros L S0; unfold chat_io; rewrite L; unfold save_io at 1.
  change (trace init_state) with [ELoad].
  change {| msg_role := RUser; msg_content := Some u; msg_tool_call_id := None;
            msg_raw := user_msg_dict u |} with (user_record u).
  rewrite S0; simpl.
  destruct (agent (chat_history h u)) as [evs ending].
  destruct (run_events_io uuid8 sb _ evs) as [st err] eqn:R.
  assert (O0 : args_ok (current_tool_calls
                          (emit (emit init_state (ESave (user_record u)))
                                (EInvoke (chat_history h u))))) by constructor.
  destruct (run_events_io_extends _ _ _ _ _ _ O0 R) as (l & E & S & Y & _).
  simpl in E.
  assert (Base : exists rest,
            trace st = ELoad :: ESave (user_record u) :: EInvoke (chat_history h u) :: rest /\
            Forall (fun m => loop_message m \/ final_message m) (saved_messages rest) /\
            no_error_event (yields rest)).
  { exists l; rewrite E; split; [reflexivity|split; [|exact Y]].
    eapply Forall_impl; [|exact S]; auto. }
  destruct err as [e|]; [exact Base|].
  destruct ending as [|e]; [|exact Base].
  destruct (String.eqb (final_response st) ""); [exact Base|].
  assert (Fin : exists rest,
            trace (save_message st RAssistant (Some (final_response st)) None
                     (final_assistant_msg (final_response st))) =
              ELoad :: ESave (user_record u) :: EInvoke (chat_history h u) :: rest /\
            Forall (fun m => loop_message m \/ final_message m) (saved_messages rest) /\
            no_error_event (yields rest)).
  { exists (app l [ESave {| msg_role := RAssistant; msg_content := Some (final_response st);
                           msg_tool_call_id := None;
                           msg_raw := final_assistant_msg (final_response st) |}]).
    unfold save_message, emit; simpl; rewrite E; simpl.
    split; [reflexivity|].
    rewrite saved_messages_app, yields_app; simpl; rewrite app_nil_r.
    split; [|exact Y].
    apply Forall_app; split; [eapply Forall_impl; [|exact S]; auto|].
    constructor; [|constructor]; right; split; [reflexivity|eexists; reflexivity]. }
  case_save; [exact Fin|exact Fin|exact Base].
Qed.

(** C4 (as amended): [chat] first loads the history ([get_messages] and the
    conversion); if that raises, nothing is saved and the agent is not
    invoked. Otherwise it calls [save_message] for the user message, once,
    before invoking the agent. If that call raises, [chat] raises the same
    error and the agent is never invoked; the message is stored or not,
    depending on where the call failed. If it returns, the agent is invoked
    with the message saved: nothing saved afterwards has the user role, and
    reloading the conversation gives the old history followed by that user
    turn and no other user turn, whatever the agent and the later saves do,
    failures included. *)
Theorem user_message_saved_once_before_invoke :
  forall uuid8 save_backend conversion_error fetched agent u,
    let run := chat_io uuid8 save_backend conversion_error fetched agent u in
    match fetched with
    | inr e => run = ([ELoad], Some e)
    | inl log =>
        match load_conversation_history log with
        | None => run = ([ELoad], Some (conversion_error log))
        | Some h =>
            match save_backend [ELoad] (user_record u) with
            | SaveRaises stored e =>
                run = (ELoad :: (if stored then [ESave (user_record u)] else []), Some e)
            | SaveReturns =>
                exists rest,
                  fst run =
                    ELoad :: ESave (user_record u) :: EInvoke (chat_history h u) :: rest /\
                  Forall (fun m => msg_role m <> RUser) (saved_messages rest) /\
                  exists t,
                    load_conversation_history (app log (saved_messages (fst run))) =
                      Some (app h (HumanMessage u :: t)) /\
                    forallb (fun t => negb (is_human_turn t)) t = true
            end
        end
    end.
Proof.
  intros uuid8 sb ce fetched agent u run; subst run.
  destruct fetched as [log|e]; [|reflexivity].
  destruct (load_conversation_history log) as [h|] eqn:L;
    [|unfold chat_io; rewrite L; reflexivity].
  destruct (sb [ELoad] (user_record u)) as [|stored e] eqn:S0.
  - destruct (chat_io_user_saved uuid8 sb ce log agent u h L S0) as (l & E & S & _).
    exists l; rewrite E; split; [reflexivity|split].
    + eapply Forall_impl; [|exact S].
      intros m [[[R _]|[R _]]|[R _]]; rewrite R; discriminate.
    + destruct (saved_messages_reload _ S) as (t & Lt & Nt).
      exists t; split; [|exact Nt].
      rewrite load_app, L; simpl; rewrite Lt; reflexivity.
  - unfold chat_io; rewrite L; unfold save_io at 1.
    change (trace init_state) with [ELoad].
    change {| msg_role := RUser; msg_content := Some u; msg_tool_call_id := None;
              msg_raw := user_msg_dict u |} with (user_record u).
    rewrite S0; destruct stored; reflexivity.
Qed.

(** C4 counterexample: an invocation can end without the user message
    being persisted. For a log whose stored tool-call arguments do not parse,
    loading the history raises before the user message is saved. For an
    empty conversation and a backend that cannot be reached, the user
    message's save raises before storing it, and the agent is never
    invoked. *)
Lemma malformed_history_user_message_not_saved :
  chat_io demo_uuid8 accepting_backend
    (fun _ => "Expecting value: line 1 column 1 (char 0)") (inl malformed_log)
    search_then_answer "What is Docker?" =
    ([ELoad], Some "Expecting value: line 1 column 1 (char 0)") /\
  chat_io demo_uuid8 unreachable_backend
    (fun _ => "Expecting value: line 1 column 1 (char 0)") (inl [])
    search_then_answer "What is Docker?" =
    ([ELoad], Some "All connection attempts failed").
Proof. split; reflexivity. Qed.

Lemma step_io_raises_silently uuid8 sb st ev st' e :
  step_io uuid8 sb st ev = (st', Some e) ->
  exists l, trace st' = app (trace st) l /\ yields l = [].
Proof.
  destruct ev as [c|name input|name output|kind]; unfold step_io, step; simpl;
    try discriminate.
  - destruct (tool_call_assistant_saved st);
      [|destruct (current_tool_calls st) as [|tc0 tcs0]]; simpl;
      case_save; intros E'; try discriminate; injection E' as <- _;
      unfold save_message, emit; simpl; trace_shape; reflexivity.
  - destruct (find (fun tc => String.eqb (tc_name tc) name) (current_tool_calls st)) as [tc|];
      [case_save|]; intros E'; try discriminate; injection E' as <- _;
      unfold save_message, emit; simpl; trace_shape; reflexivity.
Qed.

Lemma run_events_io_stream uuid8 sb evs st st' err :
  (tool_call_assistant_saved st = false -> current_tool_calls st = []) ->
  run_events_io uuid8 sb st evs = (st', err) ->
  exists n l,
    (n <= length evs)%nat /\
    trace st' = app (trace st) l /\
    map shape_of (yields l) = flat_map expected_shapes (firstn n evs) /\
    ((n < length evs)%nat -> err <> None).
Proof.
  revert st; induction evs as [|ev evs IH]; intros st Hinv H; simpl in H.
  - injection H as <- _; exists 0, []; rewrite app_nil_r; simpl.
    repeat split; [lia|intros N; lia].
  - destruct (step_io uuid8 sb st ev) as [st1 [e|]] eqn:E.
    + injection H as <- <-.
      destruct (step_io_raises_silently _ _ _ _ _ _ E) as (l & T & Y).
      exists 0, l; rewrite Y; simpl; repeat split; [lia|exact T|discriminate].
    + apply step_io_returns in E; subst st1.
      destruct (step_observed uuid8 st ev Hinv) as (l1 & T1 & I1 & Sh1 & _).
      destruct (IH _ I1 H) as (n & l2 & Hn & T2 & Sh2 & Stop).
      exists (S n), (EConsume ev :: app l1 l2).
      split; [simpl; lia|].
      rewrite T2, T1, <- app_assoc; split; [reflexivity|].
      change (yields (EConsume ev :: app l1 l2)) with (yields (app l1 l2)).
      rewrite yields_app, map_app, Sh1, Sh2; split; [reflexivity|].
      intros N; apply Stop; simpl in N; lia.
Qed.

Lemma save_io_user sb u :
  save_io sb init_state RUser (Some u) None (user_msg_dict u) =
    match sb [ELoad] (user_record u) with
    | SaveReturns => (emit init_state (ESave (user_record u)), None)
    | SaveRaises stored err =>
        (if stored then emit init_state (ESave (user_record u)) else init_state, Some err)
    end.
Proof. reflexivity. Qed.

Lemma chat_io_stream uuid8 sb ce log agent u h :
  load_conversation_history log = Some h ->
  exists n,
    (n <= length (fst (agent (chat_history h u))))%nat /\
    map shape_of (yields (fst (chat_io uuid8 sb ce (inl log) agent u))) =
      flat_map expected_shapes (firstn n (fst (agent (chat_history h u)))) /\
    ((n < length (fst (agent (chat_history h u))))%nat ->
       snd (chat_io uuid8 sb ce (inl log) agent u) <> None).
Proof.
  intros L; unfold chat_io; rewrite L, save_io_user.
  destruct (sb [ELoad] (user_record u)) as [|stored e].
  2:{ exists 0; destruct stored; simpl;
       (split; [lia|split; [reflexivity|intros _; discriminate]]). }
  destruct (agent (chat_history h u)) as [evs ending]; simpl.
  destruct (run_events_io uuid8 sb _ evs) as [st err] eqn:R.
  assert (I0 : tool_call_assistant_saved
                 (emit (emit init_state (ESave (user_record u))) (EInvoke (chat_history h u)))
               = false ->
               current_tool_calls
                 (emit (emit init_state (ESave (user_record u))) (EInvoke (chat_history h u)))
               = []) by (intros _; reflexivity).
  destruct (run_events_io_stream _ _ _ _ _ _ I0 R) as (n & l & Hn & T & Sh & Stop).
  simpl in T.
  assert (Ys : map shape_of (yields (trace st)) = flat_map expected_shapes (firstn n evs))
    by (rewrite T; exact Sh).
  exists n; split; [exact Hn|].
  destruct err as [e|]; [split; [exact Ys|discriminate]|].
  assert (Full : forall x : option string, (n < length evs)%nat -> x <> None)
    by (intros x N; exfalso; exact (Stop N eq_refl)).
  destruct ending as [|e]; [|split; [exact Ys|discriminate]].
  destruct (String.eqb (final_response st) ""); [split; [exact Ys|apply Full]|].
  assert (Ys' : map shape_of (yields (trace (save_message st RAssistant
                  (Some (final_response st)) None (final_assistant_msg (final_response st))))) =
                flat_map expected_shapes (firstn n evs))
    by (unfold save_message, emit; simpl; rewrite yields_app, app_nil_r; exact Ys).
  case_save; simpl; split; try exact Ys'; try exact Ys; try apply Full; discriminate.
Qed.

(** The client's stream over a failing backend: when the history loads, the
    stream shows the agent's events one for one (a content event for each
    non-empty chunk, a [tool_call_start] for each tool start, a
    [tool_call_end] for each tool end) for the first [n] events, followed by
    one error event exactly when [chat] raises; it shows fewer than all the
    agent's events only when [chat] raises, as it does when a save fails. *)
Theorem stream_follows_consumed_events uuid8 sb ce log agent u h
    (L : load_conversation_history log = Some h) :
  exists n,
    (n <= length (fst (agent (chat_history h u))))%nat /\
    map shape_of (generate_io uuid8 sb ce (inl log) agent u) =
      app (flat_map expected_shapes (firstn n (fst (agent (chat_history h u)))))
          (match snd (chat_io uuid8 sb ce (inl log) agent u) with
           | Some _ => [ShError]
           | None => []
           end) /\
    ((n < length (fst (agent (chat_history h u))))%nat ->
       snd (chat_io uuid8 sb ce (inl log) agent u) <> None).
Proof.
  destruct (chat_io_stream uuid8 sb ce log agent u h L) as (n & Hn & Ys & Stop).
  exists n; split; [exact Hn|split; [|exact Stop]].
  unfold generate_io.
  destruct (chat_io uuid8 sb ce (inl log) agent u) as [tr err]; simpl in *.
  rewrite map_app, Ys; destruct err; reflexivity.
Qed.

(** Witness: a search whose result save times out; the stream shows the
    text chunk and the tool request, then the error. *)
Lemma stream_follows_consumed_events_witness :
  load_conversation_history [] = Some [] /\
  snd (chat_io demo_uuid8 tool_result_timeout_backend (fun _ => load_error) (inl [])
         search_then_answer "What is Docker?") = Some "timed out" /\
  exists n,
    (n <= length (fst (search_then_answer (chat_history [] "What is Docker?"))))%nat /\
    map shape_of (generate_io demo_uuid8 tool_result_timeout_backend (fun _ => load_error)
                    (inl []) search_then_answer "What is Docker?") =
      app (flat_map expected_shapes
             (firstn n (fst (search_then_answer (chat_history [] "What is Docker?")))))
          (match snd (chat_io demo_uuid8 tool_result_timeout_backend (fun _ => load_error)
                        (inl []) search_then_answer "What is Docker?") with
           | Some _ => [ShError]
           | None => []
           end) /\
    ((n < length (fst (search_then_answer (chat_history [] "What is Docker?"))))%nat ->
       snd (chat_io demo_uuid8 tool_result_timeout_backend (fun _ => load_error) (inl [])
              search_then_answer "What is Docker?") <> None).
Proof.
  split; [reflexivity|split; [reflexivity|]].
  apply (stream_follows_consumed_events demo_uuid8 tool_result_timeout_backend
           (fun _ => load_error) [] search_then_answer "What is Docker?" []).
  reflexivity.
Defined.

Lemma announce_ok_init : announce_ok [ELoad].
Proof. intros [|[|n]] y H; discriminate. Qed.

Lemma announce_ok_snoc tr e :
  announce_ok tr ->
  (forall y, e = EYield y -> announced_stored (saved_messages tr) y) ->
  announce_ok (app tr [e]).
Proof.
  intros H He n y Hn.
  destruct (Nat.lt_ge_cases n (length tr)) as [Lt|Ge].
  - rewrite nth_error_app1 in Hn by exact Lt.
    rewrite firstn_app, (proj2 (Nat.sub_0_le n (length tr))) by lia.
    rewrite app_nil_r; apply H, Hn.
  - rewrite nth_error_app2 in Hn by exact Ge.
    destruct (n - length tr) as [|k] eqn:K; [|destruct k; discriminate].
    injection Hn as Hn.
    replace n with (length tr) by lia.
    rewrite firstn_app, Nat.sub_diag, firstn_all, app_nil_r.
    apply He; exact Hn.
Qed.

Lemma announce_ok_prefix pre y post :
  announce_ok (app pre (EYield y :: post)) -> announced_stored (saved_messages pre) y.
Proof.
  intros H.
  specialize (H (length pre) y).
  rewrite nth_error_app2, Nat.sub_diag, firstn_app, Nat.sub_diag, firstn_all, app_nil_r in H
    by lia.
  exact (H eq_refl).
Qed.

Lemma in_saved_last tr m : In m (saved_messages (app tr [ESave m])).
Proof. rewrite saved_messages_app; apply in_or_app; right; left; reflexivity. Qed.

Ltac announce_snocs :=
  repeat (apply announce_ok_snoc;
          [|let y := fresh "y" in let Hy := fresh "Hy" in
            intros y Hy; try discriminate Hy; try (injection Hy as <-; exact I)]).

Lemma save_io_announce sb st r c i raw st' err :
  announce_ok (trace st) -> save_io sb st r c i raw = (st', err) -> announce_ok (trace st').
Proof.
  intros H; unfold save_io, emit.
  destruct (sb _ _) as [|[|] e]; intros E; injection E as <- _; simpl;
    announce_snocs; exact H.
Qed.

Lemma step_io_announce uuid8 sb st ev st' err :
  announce_ok (trace st) -> step_io uuid8 sb st ev = (st', err) -> announce_ok (trace st').
Proof.
  intros H; destruct ev as [c|name input|name output|kind]; unfold step_io, step; simpl.
  - destruct (String.eqb c ""); intros E; injection E as <- _; simpl;
      announce_snocs; exact H.
  - destruct (tool_call_assistant_saved st);
      [|destruct (current_tool_calls st) as [|tc0 tcs0]]; simpl;
      unfold save_io, emit; simpl;
      (destruct (sb _ _) as [|[|] e]; intros E; injection E as <- _; simpl;
       announce_snocs; [exact H| |exact H|exact H]).
    all: injection Hy as <-; simpl.
    all: eexists; eexists; split; [apply in_saved_last|].
    all: split; [reflexivity|split; [reflexivity|]].
    all: first [left; reflexivity | right; apply in_or_app; right; left; reflexivity].
  - destruct (find (fun tc => String.eqb (tc_name tc) name) (current_tool_calls st)) as [tc|];
      unfold save_io, emit; simpl.
    + destruct (sb _ _) as [|[|] e]; intros E; injection E as <- _; simpl;
        announce_snocs; try exact H.
      injection Hy as <-; simpl.
      eexists; split; [apply in_saved_last|].
      repeat split.
    + intros E; injection E as <- _; simpl; announce_snocs; exact H.
  - intros E; injection E as <- _; simpl; announce_snocs; exact H.
Qed.

Lemma run_events_io_announce uuid8 sb evs st st' err :
  announce_ok (trace st) -> run_events_io uuid8 sb st evs = (st', err) ->
  announce_ok (trace st').
Proof.
  revert st; induction evs as [|ev evs IH]; intros st H R; simpl in R.
  - injection R as <- _; exact H.
  - destruct (step_io uuid8 sb st ev) as [st1 [e|]] eqn:E.
    + injection R as <- _; exact (step_io_announce _ _ _ _ _ _ H E).
    + exact (IH st1 (step_io_announce _ _ _ _ _ _ H E) R).
Qed.

Lemma chat_io_announce uuid8 sb ce fetched agent u :
  announce_ok (fst (chat_io uuid8 sb ce fetched agent u)).
Proof.
  unfold chat_io; destruct fetched as [log|e]; [|exact announce_ok_init].
  destruct (load_conversation_history log) as [h|]; [|exact announce_ok_init].
  destruct (save_io sb init_state RUser (Some u) None (user_msg_dict u)) as [st0 e0] eqn:S0.
  pose proof (save_io_announce _ init_state _ _ _ _ _ _ announce_ok_init S0) as H0.
  destruct e0 as [e|]; [exact H0|].
  assert (H1 : announce_ok (trace (emit st0 (EInvoke (chat_history h u)))))
    by (unfold emit; simpl; announce_snocs; exact H0).
  destruct (agent (chat_history h u)) as [evs ending].
  destruct (run_events_io uuid8 sb _ evs) as [st e1] eqn:R.
  pose proof (run_events_io_announce _ _ _ _ _ _ H1 R) as H2.
  destruct e1 as [e|]; [exact H2|].
  destruct ending as [|e]; [|exact H2].
  destruct (String.eqb (final_response st) ""); [exact H2|].
  destruct (save_io sb st RAssistant (Some (final_response st)) None
              (final_assistant_msg (final_response st))) as [st' e2] eqn:S2.
  exact (save_io_announce _ _ _ _ _ _ _ _ H2 S2).
Qed.

(** Save before announce, whatever the backend does: at every
    [tool_call_start] event sent to the client, the backend already holds
    an assistant message whose [tool_calls] list has that call, with the
    same identifier, name and arguments; at every [tool_call_end] event
    that carries an identifier, it already holds the tool message answering
    that identifier under that name. A save that raises stops [chat] before
    the event it precedes is sent. *)
Theorem tool_events_sent_after_saving uuid8 sb ce fetched agent u pre y post
    (T : fst (chat_io uuid8 sb ce fetched agent u) = app pre (EYield y :: post)) :
  announced_stored (saved_messages pre) y.
Proof.
  apply announce_ok_prefix with (post := post).
  rewrite <- T; apply chat_io_announce.
Qed.

(** Witness: the tool request of [search_then_answer] is the eighth effect
    of the invocation; its assistant message was saved just before. *)
Lemma tool_events_sent_after_saving_witness :
  fst (chat_io demo_uuid8 tool_result_timeout_backend (fun _ => load_error) (inl [])
         search_then_answer "What is Docker?") =
    app (firstn 7 (fst (chat_io demo_uuid8 tool_result_timeout_backend (fun _ => load_error)
                          (inl []) search_then_answer "What is Docker?")))
        (EYield (EvToolCallStart "call_3f2a9c1e" "search_knowledge_base"
                   [("query", JStr "Docker")])
         :: skipn 8 (fst (chat_io demo_uuid8 tool_result_timeout_backend
                            (fun _ => load_error) (inl []) search_then_answer
                            "What is Docker?"))) /\
  announced_stored
    (saved_messages (firstn 7 (fst (chat_io demo_uuid8 tool_result_timeout_backend
                                      (fun _ => load_error) (inl []) search_then_answer
                                      "What is Docker?"))))
    (EvToolCallStart "call_3f2a9c1e" "search_knowledge_base" [("query", JStr "Docker")]).
Proof.
  split; [vm_compute; reflexivity|].
  apply (tool_events_sent_after_saving demo_uuid8 tool_result_timeout_backend
           (fun _ => load_error) (inl []) search_then_answer "What is Docker?") with
    (post := skipn 8 (fst (chat_io demo_uuid8 tool_result_timeout_backend
                             (fun _ => load_error) (inl []) search_then_answer
                             "What is Docker?"))).
  vm_compute; reflexivity.
Defined.

Lemma chat_io_returns_done uuid8 sb ce log agent u h :
  load_conversation_history log = Some h ->
  snd (chat_io uuid8 sb ce (inl log) agent u) = None ->
  snd (agent (chat_history h u)) = StreamDone /\
  chat uuid8 log agent u = chat_io uuid8 sb ce (inl log) agent u.
Proof.
  intros L R.
  destruct (chat_io uuid8 sb ce (inl log) agent u) as [tr err] eqn:E; simpl in R; subst err.
  apply chat_io_returns in E.
  pose proof (chat_shape uuid8 log agent u) as Hs; rewrite L in Hs.
  destruct Hs as (l0 & _ & _ & _ & Raise & _).
  split; [|exact E].
  destruct (snd (agent (chat_history h u))) as [|e]; [reflexivity|].
  destruct (Raise e eq_refl) as (Err & _); rewrite E in Err; discriminate.
Qed.

(** Final message, over a backend whose saves can raise: when the history
    loads and [chat] does not raise, the agent's stream completed, and the
    last effect is the saving of one content-only assistant message whose
    content is the concatenation of every text chunk streamed to the caller,
    text sent before or between tool calls included; it is saved only when
    that text is non-empty, and no message saved before it has that form. *)
Theorem final_message_collects_streamed_text uuid8 sb ce log agent u h
    (L : load_conversation_history log = Some h)
    (R : snd (chat_io uuid8 sb ce (inl log) agent u) = None) :
  snd (agent (chat_history h u)) = StreamDone /\
  exists pre,
    fst (chat_io uuid8 sb ce (inl log) agent u) =
      app pre
        (if String.eqb (streamed_text (yields (fst (chat_io uuid8 sb ce (inl log) agent u)))) ""
         then []
         else [ESave {| msg_role := RAssistant;
                        msg_content :=
                          Some (streamed_text (yields (fst (chat_io uuid8 sb ce (inl log) agent u))));
                        msg_tool_call_id := None;
                        msg_raw := final_assistant_msg
                                     (streamed_text
                                        (yields (fst (chat_io uuid8 sb ce (inl log) agent u)))) |}]) /\
    Forall (fun m => ~ final_message m) (saved_messages pre).
Proof.
  destruct (chat_io_returns_done uuid8 sb ce log agent u h L R) as [D E].
  split; [exact D|].
  rewrite <- E; exact (proj2 (chat_final_message uuid8 log agent u h L D)).
Qed.

(** Witness: a backend that times out on tool results, with an agent that
    only answers; the final message holds the answer. *)
Lemma final_message_collects_streamed_text_witness :
  load_conversation_history [] = Some [] /\
  snd (chat_io demo_uuid8 tool_result_timeout_backend (fun _ => load_error) (inl [])
         (fun _ => ([OnChatModelStream "Docker is "; OnChatModelStream "a platform."], StreamDone))
         "What is Docker?") = None /\
  snd ((fun _ : list turn =>
          ([OnChatModelStream "Docker is "; OnChatModelStream "a platform."], StreamDone))
         (chat_history [] "What is Docker?")) = StreamDone /\
  exists pre,
    fst (chat_io demo_uuid8 tool_result_timeout_backend (fun _ => load_error) (inl [])
           (fun _ => ([OnChatModelStream "Docker is "; OnChatModelStream "a platform."], StreamDone))
           "What is Docker?") =
      app pre
        (if String.eqb (streamed_text (yields (fst (chat_io demo_uuid8 tool_result_timeout_backend
               (fun _ => load_error) (inl [])
               (fun _ => ([OnChatModelStream "Docker is "; OnChatModelStream "a platform."],
                          StreamDone)) "What is Docker?")))) ""
         then []
         else [ESave {| msg_role := RAssistant;
                        msg_content :=
                          Some (streamed_text (yields (fst (chat_io demo_uuid8
                            tool_result_timeout_backend (fun _ => load_error) (inl [])
                            (fun _ => ([OnChatModelStream "Docker is ";
                                        OnChatModelStream "a platform."], StreamDone))
                            "What is Docker?"))));
                        msg_tool_call_id := None;
                        msg_raw := final_assistant_msg
                          (streamed_text (yields (fst (chat_io demo_uuid8
                            tool_result_timeout_backend (fun _ => load_error) (inl [])
                            (fun _ => ([OnChatModelStream "Docker is ";
                                        OnChatModelStream "a platform."], StreamDone))
                            "What is Docker?")))) |}]) /\
    Forall (fun m => ~ final_message m) (saved_messages pre).
Proof.
  split; [reflexivity|split; [reflexivity|]].
  apply (final_message_collects_streamed_text demo_uuid8 tool_result_timeout_backend
           (fun _ => load_error) []
           (fun _ => ([OnChatModelStream "Docker is "; OnChatModelStream "a platform."],
                      StreamDone))
           "What is Docker?" []); reflexivity.
Defined.

(** Tool requests, over a backend whose saves can raise: when the history
    loads and [chat] does not raise, the n-th tool request of the agent's
    stream (counting from 0) is announced to the caller with the identifier
    "call_" followed by the n-th value of the uuid supply, its capability
    name and its input; and each announced call is persisted as its own
    assistant message whose [tool_calls] list holds exactly that one call
    (its arguments being the input), in the same order, with no other
    tool-calling assistant message saved. *)
Theorem tool_requests_saved_one_call_each uuid8 sb ce log agent u h
    (L : load_conversation_history log = Some h)
    (R : snd (chat_io uuid8 sb ce (inl log) agent u) = None) :
  start_calls (yields (fst (chat_io uuid8 sb ce (inl log) agent u))) =
    number_calls uuid8 0 (tool_starts (fst (agent (chat_history h u)))) /\
  saved_tool_call_lists (fst (chat_io uuid8 sb ce (inl log) agent u)) =
    map (fun c => [tc_of_lc c]) (start_calls (yields (fst (chat_io uuid8 sb ce (inl log) agent u)))).
Proof.
  destruct (chat_io_returns_done uuid8 sb ce log agent u h L R) as [_ E].
  rewrite <- E; exact (chat_tool_requests uuid8 log agent u h L).
Qed.

(** Witness: two parallel searches, over a backend that accepts every
    save, are saved as two one-call messages. *)
Lemma tool_requests_saved_one_call_each_witness :
  load_conversation_history [] = Some [] /\
  snd (chat_io demo_uuid8 accepting_backend (fun _ => load_error) (inl [])
         two_parallel_searches "docker compose?") = None /\
  start_calls (yields (fst (chat_io demo_uuid8 accepting_backend (fun _ => load_error) (inl [])
                              two_parallel_searches "docker compose?"))) =
    number_calls demo_uuid8 0
      (tool_starts (fst (two_parallel_searches (chat_history [] "docker compose?")))) /\
  saved_tool_call_lists (fst (chat_io demo_uuid8 accepting_backend (fun _ => load_error) (inl [])
                                two_parallel_searches "docker compose?")) =
    map (fun c => [tc_of_lc c])
      (start_calls (yields (fst (chat_io demo_uuid8 accepting_backend (fun _ => load_error)
                                  (inl []) two_parallel_searches "docker compose?")))).
Proof.
  split; [reflexivity|split; [reflexivity|]].
  apply (tool_requests_saved_one_call_each demo_uuid8 accepting_backend (fun _ => load_error)
           [] two_parallel_searches "docker compose?" []); reflexivity.
Defined.

(** Persistence round trip, over a backend whose saves can raise: when the
    history loads and [chat] does not raise, reloading the conversation
    yields the old history, the user turn, and turns whose tool calls are
    exactly the calls announced to the caller by [tool_call_start] events,
    in order, each with the same identifier, capability name and
    arguments. *)
Theorem announced_tool_calls_reload uuid8 sb ce log agent u h
    (L : load_conversation_history log = Some h)
    (R : snd (chat_io uuid8 sb ce (inl log) agent u) = None) :
  exists t,
    load_conversation_history
      (app log (saved_messages (fst (chat_io uuid8 sb ce (inl log) agent u)))) =
      Some (app h (HumanMessage u :: t)) /\
    dialogue_tool_calls t = start_calls (yields (fst (chat_io uuid8 sb ce (inl log) agent u))).
Proof.
  destruct (chat_io_returns_done uuid8 sb ce log agent u h L R) as [_ E].
  rewrite <- E; exact (chat_announced_reload uuid8 log agent u h L).
Qed.

(** Witness: the search of [search_then_answer] reloads with its id. *)
Lemma announced_tool_calls_reload_witness :
  load_conversation_history [] = Some [] /\
  snd (chat_io demo_uuid8 accepting_backend (fun _ => load_error) (inl [])
         search_then_answer "What is Docker?") = None /\
  exists t,
    load_conversation_history
      (app [] (saved_messages (fst (chat_io demo_uuid8 accepting_backend (fun _ => load_error)
                                      (inl []) search_then_answer "What is Docker?")))) =
      Some (app [] (HumanMessage "What is Docker?" :: t)) /\
    dialogue_tool_calls t =
      start_calls (yields (fst (chat_io demo_uuid8 accepting_backend (fun _ => load_error)
                                  (inl []) search_then_answer "What is Docker?"))).
Proof.
  split; [reflexivity|split; [reflexivity|]].
  apply (announced_tool_calls_reload demo_uuid8 accepting_backend (fun _ => load_error) []
           search_then_answer "What is Docker?" []); reflexivity.
Defined.
